(** * Animated Scenes: the colour-block image entity

    A shallow embedding of [custom_components/animated_scenes/image.py]:
    the [AnimatedScenesImage] entity, its configuration normalisation
    ([_async_build_colors_from_rgb_dict]) and its renderer
    ([create_color_block_image]).

    Modelling conventions.
    - Python numbers: [int] is [Z]; a finite [float] is idealised as an exact
      rational ([Q]), so [/] is exact division and [int(...)] truncates
      towards zero.  NaN and infinities are outside the model.
    - Python exceptions are values of [exn]; fallible code returns [result].
    - Mutable objects (dicts, lists) live in a store ([heap]) and are
      referred to by location; the renderer only reads its argument, so it
      is given the argument's contents as a tree ([data]).
    - Pillow is an external library: [new_image] and [rectangle] follow its
      documented behaviour; its conversion of a fill to an ink and its PNG
      encoder are parameters ([getink], [png_encode]).
    - The names of [const.py] are parameters as well.  *)

From Stdlib Require Import ZArith QArith Qround Lia String.
From Stdlib.Strings Require Import Byte.
From stdpp Require Import base tactics option list gmap strings.

Local Open Scope Z_scope.
Set Warnings "-register-all".

(** ** Exceptions and results *)

Inductive exn : Type :=
  | KeyError
  | TypeError
  | AttributeError
  | ValueError
  | ZeroDivisionError.

Inductive result (A : Type) : Type :=
  | Ok (a : A)
  | Raise (e : exn).
Arguments Ok {A} a.
Arguments Raise {A} e.

#[global] Instance result_ret : MRet result := fun _ a => Ok a.
#[global] Instance result_bind : MBind result := fun _ _ f m =>
  match m with
  | Ok a => f a
  | Raise e => Raise e
  end.

Definition is_ok {A} (r : result A) : bool :=
  match r with Ok _ => true | Raise _ => false end.

(** ** Python values *)

(** Immutable scalars. *)
Inductive atom : Type :=
  | ANone
  | ABool (b : bool)
  | AInt (z : Z)
  | AFloat (q : Q)
  | AStr (s : string).

(** The contents of an object graph read as a tree: what a function that
    only reads its argument can observe. *)
Inductive data : Type :=
  | DAtom (a : atom)
  | DList (xs : list data)
  | DDict (items : list (string * data)).

(** Dictionaries keep insertion order; keys are unique. *)
Definition dict_get {V} (k : string) (d : list (string * V)) : option V :=
  snd <$> List.find (fun kv => String.eqb k (fst kv)) d.

(** [d[k] = v] / [d.update({k: v})]: an existing key keeps its position, a
    new key goes last. *)
Fixpoint dict_set {V} (k : string) (v : V) (d : list (string * V))
  : list (string * V) :=
  match d with
  | [] => [(k, v)]
  | (k', v') :: d' =>
      if String.eqb k k' then (k', v) :: d' else (k', v') :: dict_set k v d'
  end.

(** [x[k]] for a string subscript [k]. *)
Definition getitem (x : data) (k : string) : result data :=
  match x with
  | DDict items =>
      match dict_get k items with
      | Some v => Ok v
      | None => Raise KeyError
      end
  | _ => Raise TypeError
  end.

(** The numeric value of an operand of [+] or [/] with a number on the other
    side; [bool] is a subclass of [int]. *)
Definition as_number (x : data) : result Q :=
  match x with
  | DAtom (AInt z) => Ok (inject_Z z)
  | DAtom (AFloat q) => Ok q
  | DAtom (ABool b) => Ok (if b then 1%Q else 0%Q)
  | _ => Raise TypeError
  end.

(** [a / b] on numbers. *)
Definition truediv (a b : Q) : result Q :=
  if Qeq_bool b 0 then Raise ZeroDivisionError else Ok (a / b)%Q.

(** [int(x)]: truncation towards zero. *)
Definition int (x : Q) : Z := Z.quot (Qnum x) (Z.pos (Qden x)).

(** [tuple(x)]: the elements of an iterable. *)
Definition tuple (x : data) : result (list data) :=
  match x with
  | DList xs => Ok xs
  | DDict items => Ok (map (fun kv => DAtom (AStr (fst kv))) items)
  | DAtom (AStr s) =>
      Ok (map (fun c => DAtom (AStr (String c EmptyString))) (list_ascii_of_string s))
  | DAtom _ => Raise TypeError
  end.

(** ** Raster images (Pillow) *)

Definition rgb : Type := Z * Z * Z.

(** Rows from top to bottom, each row from left to right. *)
Abbreviation raster := (list (list rgb)).

(** [PILImage.new("RGB", (w, h))]: every pixel black. *)
Definition new_image (w h : nat) : raster := replicate h (replicate w (0, 0, 0)).

Definition getpixel (im : raster) (x y : nat) : option rgb :=
  im !! y ≫= fun row => row !! x.

Definition in_span (lo hi : Z) (i : nat) : bool :=
  (lo <=? Z.of_nat i) && (Z.of_nat i <=? hi).

(** [ImageDraw.rectangle([x0, y0, x1, y1], fill)]: Pillow's bounding box is
    inclusive of both corner points; the part outside the image is
    clipped. *)
Definition rectangle (x0 y0 x1 y1 : Z) (fill : rgb) (im : raster) : raster :=
  imap (fun y row =>
          if in_span y0 y1 y
          then imap (fun x p => if in_span x0 x1 x then fill else p) row
          else row) im.

(** ** The entity *)

Definition time : Type := Z.
Abbreviation loc := nat.

(** [homeassistant.components.image.Image]. *)
Record Image : Type := mkImage {
  content : list byte;
  content_type : string
}.

Record AnimatedScenesImage : Type := mkEntity {
  _attr_image_last_updated : time;
  _cached_image : option Image;
  _config : loc
}.

Definition width : Z := 500.
Definition height : Z := 100.

(** The [for] statement over a list with a fallible body. *)
Fixpoint for_each {S A} (body : S -> A -> result S) (l : list A) (st : S)
  : result S :=
  match l with
  | [] => Ok st
  | a :: l' => st' ← body st a; for_each body l' st'
  end.

(** [color_info["weight"]] as a number. *)
Definition weight_of (color_info : data) : result Q :=
  w ← getitem color_info "weight"%string; as_number w.

(** [sum(color_info["weight"] for color_info in scene_colors)]. *)
Definition sum_weights (scene_colors : list data) : result Q :=
  for_each (fun acc color_info => w ← weight_of color_info; Ok (acc + w)%Q)
           scene_colors 0%Q.

(** [sum(...) or 1]. *)
Definition total_weight (scene_colors : list data) : result Q :=
  s ← sum_weights scene_colors; Ok (if Qeq_bool s 0 then 1%Q else s).

(** [int((color_info["weight"] / total_weight) * width)]. *)
Definition block_width (total : Q) (color_info : data) : result Z :=
  w ← weight_of color_info;
  r ← truediv w total;
  Ok (int (r * inject_Z width)).

Section Renderer.

(** Pillow's conversion of the [fill] tuple to an ink of an RGB image; it
    raises on a fill it does not accept. *)
Variable getink : list data -> result rgb.

(** [block_image.save(buffer, format="PNG")]: the encoder is a function
    of the raster. *)
Variable png_encode : raster -> list byte.

(** One iteration of the drawing loop; the state is [current_x] and the
    image being drawn on. *)
Definition draw_block (total : Q) (st : Z * raster) (color_info : data)
  : result (Z * raster) :=
  let '(current_x, block_image) := st in
  block_width ← block_width total color_info;
  if block_width <=? 0 then Ok (current_x, block_image)
  else
    c ← getitem color_info "color"%string;
    color ← tuple c;
    ink ← getink color;
    Ok (current_x + block_width,
        rectangle current_x 0 (current_x + block_width) height ink block_image).

Definition draw_blocks (total : Q) (scene_colors : list data)
  : result (Z * raster) :=
  for_each (draw_block total) scene_colors
           (0, new_image (Z.to_nat width) (Z.to_nat height)).

(** The image drawn for [scene_colors]. *)
Definition render (scene_colors : list data) : result raster :=
  total ← total_weight scene_colors;
  st ← draw_blocks total scene_colors;
  Ok (snd st).

(** [create_color_block_image(scene_colors)]; [now] is what
    [dt_util.utcnow()] returns at the end of the call.  An exception
    leaves [self] as it was. *)
Definition create_color_block_image
    (scene_colors : list data) (now : time) (self : AnimatedScenesImage)
  : result unit * AnimatedScenesImage :=
  match render scene_colors with
  | Ok block_image =>
      (Ok tt,
       {| _attr_image_last_updated := now;
          _cached_image :=
            Some {| content := png_encode block_image;
                    content_type := "image/png"%string |};
          _config := _config self |})
  | Raise e => (Raise e, self)
  end.

End Renderer.

(** ** The store *)

(** A value held in a variable, a dict slot or a list slot: a scalar or a
    reference to a mutable object. *)
Inductive pyval : Type :=
  | VAtom (a : atom)
  | VRef (l : loc).

Inductive pyobj : Type :=
  | ODict (items : list (string * pyval))
  | OList (elems : list pyval).

(** Objects by location; a new object takes the next location. *)
Abbreviation heap := (list pyobj).

Definition values_of (o : pyobj) : list pyval :=
  match o with
  | ODict items => map snd items
  | OList elems => elems
  end.

(** The object [o] with its slots holding [vs] instead. *)
Definition with_values (o : pyobj) (vs : list pyval) : pyobj :=
  match o with
  | ODict items => ODict (zip (map fst items) vs)
  | OList _ => OList vs
  end.

Definition empty_like (o : pyobj) : pyobj :=
  match o with
  | ODict _ => ODict []
  | OList _ => OList []
  end.

(** Reading an object graph as a tree, to depth [fuel]. *)
Fixpoint load (fuel : nat) (h : heap) (v : pyval) : option data :=
  match v with
  | VAtom a => Some (DAtom a)
  | VRef l =>
      match fuel with
      | O => None
      | S n =>
          match h !! l with
          | Some (OList elems) => DList <$> mapM (load n h) elems
          | Some (ODict items) =>
              DDict <$> mapM (fun kv => pair (fst kv) <$> load n h (snd kv)) items
          | None => None
          end
      end
  end.

(** *** [copy.deepcopy] *)

Section copy_values.
Context {St : Type} (copy : pyval -> St -> option (pyval * St)).

(** The slots of a container are copied from first to last. *)
Fixpoint copy_values (vs : list pyval) (st : St) : option (list pyval * St) :=
  match vs with
  | [] => Some ([], st)
  | v :: vs' =>
      match copy v st with
      | Some (v', st1) =>
          match copy_values vs' st1 with
          | Some (vs'', st2) => Some (v' :: vs'', st2)
          | None => None
          end
      | None => None
      end
  end.
End copy_values.

(** [deepcopy(x, memo)].  A scalar is returned as it is.  A container
    already in [memo] yields its copy; otherwise an empty container is
    created, recorded in [memo], and filled with the copies of the slots.
    [fuel] bounds the nesting of the recursion. *)
Fixpoint deepcopy (fuel : nat) (x : pyval) (st : gmap loc loc * heap)
  : option (pyval * (gmap loc loc * heap)) :=
  match fuel with
  | O => None
  | S n =>
      match x with
      | VAtom _ => Some (x, st)
      | VRef l =>
          let '(memo, h) := st in
          match memo !! l with
          | Some y => Some (VRef y, st)
          | None =>
              match h !! l with
              | Some o =>
                  let y := length h in
                  match copy_values (deepcopy n) (values_of o)
                                    (<[l := y]> memo, h ++ [empty_like o]) with
                  | Some (vs, (memo', h')) =>
                      Some (VRef y, (memo', <[y := with_values o vs]> h'))
                  | None => None
                  end
              | None => None
              end
          end
      end
  end.

(** ** Code that runs on the store

    [None] marks a run outside the model (a dangling reference, or
    recursion deeper than the fuel); [Some (Raise e, h)] is a Python
    exception. *)
Definition M (A : Type) : Type := heap -> option (result A * heap).

Definition retM {A} (a : A) : M A := fun h => Some (Ok a, h).

Definition bindM {A B} (m : M A) (f : A -> M B) : M B := fun h =>
  match m h with
  | Some (Ok a, h') => f a h'
  | Some (Raise e, h') => Some (Raise e, h')
  | None => None
  end.

Notation "'let*' p := m 'in' k" := (bindM m (fun p => k))
  (at level 10, p pattern, m at level 100, k at level 200).
Notation "m ;; k" := (bindM m (fun _ => k))
  (at level 100, right associativity).

(** A new object. *)
Definition new_object (o : pyobj) : M pyval :=
  fun h => Some (Ok (VRef (length h)), h ++ [o]).

(** [copy.deepcopy(x)]: every container can be entered once, so the
    recursion nests at most as deep as there are objects. *)
Definition copy_deepcopy (x : pyval) : M pyval :=
  fun h =>
    match deepcopy (S (length h)) x (∅, h) with
    | Some (y, (_, h')) => Some (Ok y, h')
    | None => None
    end.

(** The dict behind [x], for a call of a dict method on [x]; any other
    value has no such attribute. *)
Definition dict_of (x : pyval) : M (loc * list (string * pyval)) :=
  fun h =>
    match x with
    | VAtom _ => Some (Raise AttributeError, h)
    | VRef l =>
        match h !! l with
        | Some (ODict items) => Some (Ok (l, items), h)
        | Some (OList _) => Some (Raise AttributeError, h)
        | None => None
        end
    end.

(** [x.update({k: v})]. *)
Definition dict_update (x : pyval) (k : string) (v : pyval) : M unit :=
  let* (l, items) := dict_of x in
  fun h => Some (Ok tt, <[l := ODict (dict_set k v items)]> h).

(** [x.get(k, default)]. *)
Definition dict_get_default (x : pyval) (k : string) (default : pyval)
  : M pyval :=
  let* (_, items) := dict_of x in
  retM (match dict_get k items with
        | Some v => v
        | None => default
        end).

(** A [for] statement whose body runs on the store. *)
Fixpoint for_each_M {A} (body : A -> M unit) (l : list A) : M unit :=
  match l with
  | [] => retM tt
  | a :: l' => body a;; for_each_M body l'
  end.

Section Entity.

(** The names and tags of [const.py], which is not among the sources
    read here: each is some string. *)
Variables CONF_COLOR_RGB CONF_COLOR_RGB_DICT CONF_COLOR_TYPE CONF_COLORS
          CONF_COLOR_SELECTOR_MODE COLOR_SELECTOR_RGB_UI : string.

Variable getink : list data -> result rgb.
Variable png_encode : raster -> list byte.

(** [_async_build_colors_from_rgb_dict]. *)
Definition _async_build_colors_from_rgb_dict (self : AnimatedScenesImage)
  : M unit :=
  let* empty := new_object (ODict []) in
  let* raw := dict_get_default (VRef (_config self)) CONF_COLOR_RGB_DICT empty in
  let* copied := copy_deepcopy raw in
  let* (_, items) := dict_of copied in
  let* color_list := new_object (OList (map snd items)) in
  for_each_M
    (fun color => dict_update color CONF_COLOR_TYPE (VAtom (AStr CONF_COLOR_RGB)))
    (map snd items);;
  dict_update (VRef (_config self)) CONF_COLORS color_list.

(** [self._config.get(CONF_COLORS, [])], read as a tree for a callee that
    only iterates over it.  A value nested deeper than there are objects
    (a cyclic one) is outside the model. *)
Definition scene_colors_of (self : AnimatedScenesImage) : M (list data) :=
  let* empty := new_object (OList []) in
  let* colors := dict_get_default (VRef (_config self)) CONF_COLORS empty in
  fun h =>
    match load (length h) h colors with
    | Some d =>
        match tuple d with
        | Ok entries => Some (Ok entries, h)
        | Raise e => Some (Raise e, h)
        end
    | None => None
    end.

(** The normalisation done by [async_added_to_hass] before it renders:
    the list handed to [create_color_block_image]. *)
Definition normalize (self : AnimatedScenesImage) : M (list data) :=
  let* mode := dict_get_default (VRef (_config self)) CONF_COLOR_SELECTOR_MODE
                                (VAtom ANone) in
  match mode with
  | VAtom (AStr s) =>
      if String.eqb s COLOR_SELECTOR_RGB_UI
      then _async_build_colors_from_rgb_dict self
      else retM tt
  | _ => retM tt
  end;;
  scene_colors_of self.

(** [async_added_to_hass]; [now] is the clock reading taken by the
    renderer. *)
Definition async_added_to_hass (now : time) (self : AnimatedScenesImage)
    (h : heap)
  : option (result unit * AnimatedScenesImage * heap) :=
  match normalize self h with
  | Some (Ok scene_colors, h') =>
      let '(r, self') :=
        create_color_block_image getink png_encode scene_colors now self in
      Some (r, self', h')
  | Some (Raise e, h') => Some (Raise e, self, h')
  | None => None
  end.

End Entity.

(** ** Setting the entity up *)

(** [homeassistant.config_entries.ConfigEntry]: its identifier and the
    location of its mapping [data]. *)
Record ConfigEntry : Type := mkConfigEntry {
  entry_id : string;
  entry_data : loc
}.

(** The entity as [__init__] leaves it: the attributes of
    [AnimatedScenesImage] above, and the name and identifier it shows. *)
Record NewEntity : Type := mkNewEntity {
  _attr_name : string;
  _attr_unique_id : string;
  entity : AnimatedScenesImage
}.

(** [dict(x)] for a mapping [x]: a new dict with the same items, which
    shares their values.  ([config_entry.data] is a mapping; a call on
    anything else is outside the model.) *)
Definition dict_copy (x : loc) : M loc :=
  fun h =>
    match h !! x with
    | Some (ODict items) => Some (Ok (length h), h ++ [ODict items])
    | _ => None
    end.

Section Setup.

Variable CONF_NAME : string.

(** [str(x)] for a value that is not a string. *)
Variable str_other : heap -> pyval -> string.

(** What an f-string puts for [{x}]: a string as it is. *)
Definition format_value (h : heap) (x : pyval) : string :=
  match x with
  | VAtom (AStr s) => s
  | _ => str_other h x
  end.

(** [AnimatedScenesImage.__init__(hass, config, unique_id)] for a dict
    [config]; [now] is the reading of [dt_util.utcnow()].  The name is
    looked up first, so without it nothing else is done. *)
Definition __init__ (now : time) (config : loc) (unique_id : string) : M NewEntity :=
  fun h =>
    match h !! config with
    | Some (ODict items) =>
        match dict_get CONF_NAME items with
        | Some name =>
            Some (Ok {| _attr_name := format_value h name +:+ " Color Block";
                        _attr_unique_id := unique_id +:+ "-image";
                        entity := {| _attr_image_last_updated := now;
                                     _cached_image := None;
                                     _config := config |} |}, h)
        | None => Some (Raise KeyError, h)
        end
    | Some (OList _) => Some (Raise TypeError, h)
    | None => None
    end.

(** [async_setup_entry]: the entities handed to [async_add_entities]. *)
Definition async_setup_entry (now : time) (config_entry : ConfigEntry)
  : M (list NewEntity) :=
  let unique_id := entry_id config_entry in
  let* config := dict_copy (entry_data config_entry) in
  let* e := __init__ now config unique_id in
  retM [e].

End Setup.

(** * Specification vocabulary *)

(** ** Sums and shares *)

(** The sum of a list of integers. *)
Definition Zsum (zs : list Z) : Z := foldr Z.add 0 zs.

(** The sum of a list of rationals. *)
Definition Qsum (qs : list Q) : Q := foldr Qplus 0%Q qs.


(** ** Entries *)

(** The entry has a numeric weight equal to zero. *)
Definition zero_weight (color_info : data) : Prop :=
  exists q, weight_of color_info = Ok q /\ (q == 0)%Q.


(** [tuple(color_info["color"])] as an ink. *)
Definition resolve_color (getink : list data -> result rgb) (color_info : data)
  : result rgb :=
  c ← getitem color_info "color"%string; color ← tuple c; getink color.


(** A malformed entry: no numeric weight, or a colour that cannot be
    turned into an ink. *)
Definition malformed_entry (getink : list data -> result rgb) (color_info : data)
  : bool :=
  negb (is_ok (weight_of color_info)) || negb (is_ok (resolve_color getink color_info)).

(** A tree without dicts: scalars and (nested) lists of scalars. *)
Fixpoint dict_free (d : data) : bool :=
  match d with
  | DAtom _ => true
  | DList xs => forallb dict_free xs
  | DDict _ => false
  end.

(** An entry object: a dict whose slots hold scalars or lists of them. *)
Definition flat_entry (d : data) : Prop :=
  exists fields, d = DDict fields /\ Forall (fun fd => dict_free (snd fd) = true) fields.

(** ** Stores *)

(** No object refers to a location outside the store. *)
Definition closed (h : heap) : Prop :=
  forall (l : nat) (o : pyobj) (r : nat),
    h !! l = Some o -> VRef r ∈ values_of o -> (r < length h)%nat.

(** [closed], decided. *)
Definition closedb (h : heap) : bool :=
  forallb (fun o =>
             forallb (fun v => match v with
                               | VRef r => Nat.ltb r (length h)
                               | VAtom _ => true
                               end) (values_of o)) h.

(** A value that, if it is a reference, refers into the store. *)
Definition valid_in (h : heap) (x : pyval) : Prop :=
  forall l : nat, x = VRef l -> (l < length h)%nat.

(** [reach h l l']: the object at [l'] can be reached from the one at [l]. *)
Inductive reach (h : heap) : nat -> nat -> Prop :=
  | reach_here (l : nat) : reach h l l
  | reach_slot (l r l' : nat) (o : pyobj) :
      h !! l = Some o -> VRef r ∈ values_of o -> reach h r l' -> reach h l l'.

(** Every object at or above [base] only refers to objects at or above
    [base]. *)
Definition fresh_closed (base : nat) (h : heap) : Prop :=
  forall (l : nat) (o : pyobj) (r : nat),
    (base <= l)%nat -> h !! l = Some o -> VRef r ∈ values_of o -> (base <= r)%nat.

(** The slots of a dict read one by one. *)
Definition items_load (f : pyval -> option data)
    (kv : string * pyval) (dkv : string * data) : Prop :=
  fst dkv = fst kv /\ f (snd kv) = Some (snd dkv).

(** ** Deep copies *)

(** The value [v] with every reference replaced by its copy. *)
Definition rename_val (m : gmap nat nat) (v : pyval) : pyval :=
  match v with
  | VAtom _ => v
  | VRef l => match m !! l with Some y => VRef y | None => v end
  end.

Definition rename_obj (m : gmap nat nat) (o : pyobj) : pyobj :=
  with_values o (map (rename_val m) (values_of o)).

Section CopyInvariants.

(** The store when [copy.deepcopy] is called. *)
Variable h0 : heap.

(** What holds between two steps of a copy: the objects of [h0] are
    untouched, and [memo] sends objects of [h0] to objects made since. *)
Record copy_inv (m : gmap nat nat) (h : heap) : Prop := {
  ci_prefix : forall l : nat, (l < length h0)%nat -> h !! l = h0 !! l;
  ci_len : (length h0 <= length h)%nat;
  ci_memo : forall l y : nat, m !! l = Some y ->
              (l < length h0)%nat /\ (length h0 <= y < length h)%nat
}.

(** What a run of the copy from [(m, h)] to [(m', h')] has done: nothing
    that existed was written to, and every object it made is the copy
    of an object of [h0], slot by slot. *)
Record copy_post (m : gmap nat nat) (h : heap) (m' : gmap nat nat) (h' : heap)
  : Prop := {
  cp_inv : copy_inv m' h';
  cp_memo : m ⊆ m';
  cp_len : (length h <= length h')%nat;
  cp_frame : forall l : nat, (l < length h)%nat -> h' !! l = h !! l;
  cp_new : forall l y : nat, m' !! l = Some y -> m !! l = None ->
             (length h <= y)%nat /\
             exists o, h0 !! l = Some o /\ h' !! y = Some (rename_obj m' o) /\
                       forall r : nat, VRef r ∈ values_of o -> is_Some (m' !! r);
  cp_fresh : forall y : nat, (length h <= y < length h')%nat ->
               exists l : nat, m' !! l = Some y /\ m !! l = None
}.

(** The specification of a copying function on values. *)
Definition copy_spec
    (copy : pyval -> gmap nat nat * heap -> option (pyval * (gmap nat nat * heap)))
  : Prop :=
  forall x m h y m' h',
    copy_inv m h -> valid_in h0 x ->
    copy x (m, h) = Some (y, (m', h')) ->
    copy_post m h m' h' /\ y = rename_val m' x /\
    (forall l : nat, x = VRef l -> is_Some (m' !! l)).

(** A copying function that returns when given fuel [k] beyond the
    number of objects not yet copied. *)
Definition copy_total (k : nat)
    (copy : pyval -> gmap nat nat * heap -> option (pyval * (gmap nat nat * heap)))
  : Prop :=
  forall x m h,
    copy_inv m h -> valid_in h0 x -> (length h0 - size m < k)%nat ->
    is_Some (copy x (m, h)).

End CopyInvariants.

(** ** Tagging *)

Section Tagging.

Variables CONF_COLOR_RGB CONF_COLOR_RGB_DICT CONF_COLOR_TYPE : string.

(** The body of the tagging loop and its effect on one object. *)
Definition tag_color (color : pyval) : M unit :=
  dict_update color CONF_COLOR_TYPE (VAtom (AStr CONF_COLOR_RGB)).

Definition stamp_obj (o : pyobj) : pyobj :=
  match o with
  | ODict d => ODict (dict_set CONF_COLOR_TYPE (VAtom (AStr CONF_COLOR_RGB)) d)
  | OList _ => o
  end.

(** An entry read as a tree, with the type tag set. *)
Definition stamp_data (d : data) : data :=
  match d with
  | DDict fields =>
      DDict (dict_set CONF_COLOR_TYPE (DAtom (AStr CONF_COLOR_RGB)) fields)
  | _ => d
  end.

(** The argument of [copy.deepcopy]: the stored mapping, or the new empty
    dict at the end of the store [h]. *)
Definition raw_mapping (h : heap) (cfg : list (string * pyval)) : pyval :=
  match dict_get CONF_COLOR_RGB_DICT cfg with
  | Some v => v
  | None => VRef (length h)
  end.

End Tagging.

(** The raster has [h] rows of [w] pixels. *)
Definition canvas_shape (w h : nat) (im : raster) : Prop :=
  length im = h /\ Forall (fun row => length row = w) im.




(** How deep the containers of a tree nest. *)
Fixpoint depth (d : data) : nat :=
  match d with
  | DAtom _ => O
  | DList xs => S (foldr Nat.max O (map depth xs))
  | DDict items => S (foldr Nat.max O (map (fun kv => depth (snd kv)) items))
  end.

(** The colour mapping stored under [key], if there is one, is a dict all of
    whose values are dicts. *)
Definition mapping_ok (key : string) (h : heap) (cfg : list (string * pyval)) : Prop :=
  forall v, dict_get key cfg = Some v ->
    exists (mp : nat) items0,
      v = VRef mp /\ h !! mp = Some (ODict items0) /\
      Forall (fun kv => exists (e : nat) d, snd kv = VRef e /\ h !! e = Some (ODict d))
             items0.

(** ** Worked inputs *)

(** An ink conversion for the worked examples: it accepts a triple of
    integers, the shape the docstring gives for ["color"], and rejects any
    other fill. *)
Definition rgb_ink (fill : list data) : result rgb :=
  match fill with
  | [DAtom (AInt r); DAtom (AInt g); DAtom (AInt b)] => Ok (r, g, b)
  | _ => Raise TypeError
  end.

(** An encoder for the worked examples: the pixels, one byte per channel. *)
Definition raw_encode (im : raster) : list byte :=
  let channel (z : Z) : byte :=
    match Byte.of_N (Z.to_N z) with Some b => b | None => x00 end in
  concat (map (fun row => concat (map (fun p : rgb =>
                                         let '(r, g, b) := p in
                                         [channel r; channel g; channel b]) row)) im).

(** [{"color": [r, g, b], "weight": w}]. *)
Definition color_entry (r g b : Z) (w : atom) : data :=
  DDict [("color"%string, DList [DAtom (AInt r); DAtom (AInt g); DAtom (AInt b)]);
         ("weight"%string, DAtom w)].

Definition red (w : atom) : data := color_entry 255 0 0 w.
Definition green (w : atom) : data := color_entry 0 255 0 w.
Definition blue (w : atom) : data := color_entry 0 0 255 w.

(** [{"color": None, "weight": 0}]: a colour that is no sequence. *)
Definition colorless : data :=
  DDict [("color"%string, DAtom ANone); ("weight"%string, DAtom (AInt 0))].

(** An entity that has rendered nothing yet; its configuration dict is the
    first object of the store. *)
Definition fresh_entity : AnimatedScenesImage :=
  {| _attr_image_last_updated := 0; _cached_image := None; _config := 0%nat |}.

(** A store holding the configuration
    [{"name": "x", "color_selector_mode": "rgb_ui",
      "color_rgb_dict": {"a": {"color": [255, 0, 0], "weight": 1},
                         "b": {"color": [0, 255, 0], "weight": 1}}}]. *)
Definition mapping_store : heap :=
  [ ODict [("name"%string, VAtom (AStr "x"));
           ("color_selector_mode"%string, VAtom (AStr "rgb_ui"));
           ("color_rgb_dict"%string, VRef 1)];
    ODict [("a"%string, VRef 2); ("b"%string, VRef 4)];
    ODict [("color"%string, VRef 3); ("weight"%string, VAtom (AInt 1))];
    OList [VAtom (AInt 255); VAtom (AInt 0); VAtom (AInt 0)];
    ODict [("color"%string, VRef 5); ("weight"%string, VAtom (AInt 1))];
    OList [VAtom (AInt 0); VAtom (AInt 255); VAtom (AInt 0)] ].

(** A store holding the configuration [{"name": "x"}]. *)
Definition bare_store : heap := [ ODict [("name"%string, VAtom (AStr "x"))] ].

(** A store holding the configuration
    [{"name": "x", "colors": [{"color": [255, 0, 0], "weight": 1}]}]. *)
Definition list_store : heap :=
  [ ODict [("name"%string, VAtom (AStr "x")); ("colors"%string, VRef 1)];
    OList [VRef 2];
    ODict [("color"%string, VRef 3); ("weight"%string, VAtom (AInt 1))];
    OList [VAtom (AInt 255); VAtom (AInt 0); VAtom (AInt 0)] ].

(** The same configuration in the RGB selector mode, without a mapping:
    [{"name": "x", "color_selector_mode": "rgb_ui",
      "colors": [{"color": [255, 0, 0], "weight": 1}]}]. *)
Definition stale_store : heap :=
  [ ODict [("name"%string, VAtom (AStr "x"));
           ("color_selector_mode"%string, VAtom (AStr "rgb_ui"));
           ("colors"%string, VRef 1)];
    OList [VRef 2];
    ODict [("color"%string, VRef 3); ("weight"%string, VAtom (AInt 1))];
    OList [VAtom (AInt 255); VAtom (AInt 0); VAtom (AInt 0)] ].

(** A mapping whose second value is a number:
    [{"name": "x", "color_selector_mode": "rgb_ui",
      "color_rgb_dict": {"a": {"weight": 1}, "b": 7}}]. *)
Definition broken_store : heap :=
  [ ODict [("name"%string, VAtom (AStr "x"));
           ("color_selector_mode"%string, VAtom (AStr "rgb_ui"));
           ("color_rgb_dict"%string, VRef 1)];
    ODict [("a"%string, VRef 2); ("b"%string, VAtom (AInt 7))];
    ODict [("weight"%string, VAtom (AInt 1))] ].

(** Two config entries whose data is the first object of the store. *)
Definition entry_a : ConfigEntry := {| entry_id := "a1"; entry_data := 0%nat |}.
Definition entry_b : ConfigEntry := {| entry_id := "b2"; entry_data := 0%nat |}.

(** [str] for the worked examples, where every name is a string. *)
Definition no_str (h : heap) (x : pyval) : string := "".

(** * Facts about the model *)

(** ** Results *)

Lemma bind_Ok_inv {A B} (m : result A) (f : A -> result B) (b : B) :
  m ≫= f = Ok b -> exists a, m = Ok a /\ f a = Ok b.
Proof. destruct m as [a|e]; [eauto | discriminate]. Qed.


Lemma is_ok_false {A} (r : result A) : is_ok r = false -> exists e, r = Raise e.
Proof. destruct r; [discriminate | eauto]. Qed.

Lemma for_each_app {S A} (body : S -> A -> result S) (l1 l2 : list A) (st : S) :
  for_each body (l1 ++ l2) st = for_each body l1 st ≫= for_each body l2.
Proof.
  revert st. induction l1 as [|a l1 IH]; intros st; [done|].
  simpl. destruct (body st a) as [st'|e]; [apply IH | done].
Qed.

(** ** Rational arithmetic of the block width *)

Lemma int_Qeq (p q : Q) : (p == q)%Q -> int p = int q.
Proof.
  destruct p as [a b], q as [c d]. unfold Qeq, int. simpl. intros H.
  rewrite <- (Z.quot_mul_cancel_r a (Z.pos b) (Z.pos d)) by lia.
  rewrite <- (Z.quot_mul_cancel_r c (Z.pos d) (Z.pos b)) by lia.
  rewrite H. f_equal. lia.
Qed.


Lemma int_inject_Z (z : Z) : int (inject_Z z) = z.
Proof. unfold int. simpl. apply Z.quot_1_r. Qed.





Lemma Zsum_cons (z : Z) (zs : list Z) : Zsum (z :: zs) = z + Zsum zs.
Proof. reflexivity. Qed.

Lemma Zsum_app (xs ys : list Z) : Zsum (xs ++ ys) = Zsum xs + Zsum ys.
Proof. induction xs as [|x xs IH]; simpl; rewrite ?Zsum_cons; [done | rewrite IH; lia]. Qed.



(** ** The renderer *)

Lemma sum_weights_from (l : list data) (qs : list Q) (acc : Q) :
  Forall2 (fun e q => weight_of e = Ok q) l qs ->
  exists s,
    for_each (fun acc color_info => w ← weight_of color_info; Ok (acc + w)%Q) l acc
      = Ok s /\ (s == acc + Qsum qs)%Q.
Proof.
  intros H. revert acc. induction H as [|e q l qs He _ IH]; intros acc; simpl.
  - exists acc. split; [done | ring].
  - rewrite He. simpl. destruct (IH (acc + q)%Q) as (s & Hs & Hq).
    exists s. split; [done|]. rewrite Hq. ring.
Qed.


Lemma sum_weights_Raise (l : list data) (acc : Q) :
  Exists (fun e => is_ok (weight_of e) = false) l ->
  exists e, for_each (fun acc color_info => w ← weight_of color_info; Ok (acc + w)%Q)
                     l acc = Raise e.
Proof.
  intros H. revert acc. induction H as [e l He | e l _ IH]; intros acc; simpl.
  - apply is_ok_false in He as (x & ->). by exists x.
  - destruct (weight_of e) as [q|x]; simpl; [apply IH | by exists x].
Qed.

Lemma block_width_zero (color_info : data) :
  zero_weight color_info -> block_width 1 color_info = Ok 0.
Proof.
  intros (q & Hw & Hq). unfold block_width. rewrite Hw. simpl.
  f_equal. rewrite <- (int_inject_Z 0). apply int_Qeq.
  rewrite Hq. reflexivity.
Qed.


Section RendererFacts.

Variable getink : list data -> result rgb.
Variable png_encode : raster -> list byte.

(** An entry whose width is not positive leaves the loop state as it
    was, whatever its colour. *)
Lemma draw_block_skip (total : Q) (st : Z * raster) (color_info : data) (w : Z) :
  block_width total color_info = Ok w -> w <= 0 ->
  draw_block getink total st color_info = Ok st.
Proof.
  intros Hw Hle. destruct st as [x im]. unfold draw_block. rewrite Hw. simpl.
  destruct (Z.leb_spec w 0); [done | lia].
Qed.

(** A completed iteration either skipped the entry or drew one rectangle
    starting at the cursor and moved the cursor by the entry's width. *)
Lemma draw_block_Ok_inv (total : Q) (x x' : Z) (im im' : raster) (color_info : data) :
  draw_block getink total (x, im) color_info = Ok (x', im') ->
  exists w, block_width total color_info = Ok w /\
    ((w <= 0 /\ x' = x /\ im' = im) \/
     (0 < w /\ x' = x + w /\
      exists ink, resolve_color getink color_info = Ok ink /\
                  im' = rectangle x 0 (x + w) height ink im)).
Proof.
  unfold draw_block. intros H.
  apply bind_Ok_inv in H as (w & Hw & H). exists w. split; [done|].
  destruct (Z.leb_spec w 0) as [Hle|Hlt].
  - left. by simplify_eq.
  - right. apply bind_Ok_inv in H as (c & Hc & H).
    apply bind_Ok_inv in H as (t & Ht & H).
    apply bind_Ok_inv in H as (ink & Hink & H). simplify_eq.
    split; [done|]. split; [done|]. exists ink. split; [|done].
    unfold resolve_color. rewrite Hc. simpl. rewrite Ht. simpl. done.
Qed.

Lemma draw_block_cursor_le (total : Q) (st st' : Z * raster) (color_info : data) :
  draw_block getink total st color_info = Ok st' -> fst st <= fst st'.
Proof.
  destruct st as [x im], st' as [x' im']. intros H.
  apply draw_block_Ok_inv in H as (w & _ & [(_ & -> & _)|(Hw & -> & _)]); simpl; lia.
Qed.

Lemma for_each_cursor_le (total : Q) (l : list data) (st st' : Z * raster) :
  for_each (draw_block getink total) l st = Ok st' -> fst st <= fst st'.
Proof.
  revert st. induction l as [|e l IH]; intros st H; simpl in H.
  - by simplify_eq.
  - apply bind_Ok_inv in H as (st1 & H1 & H2).
    apply draw_block_cursor_le in H1. apply IH in H2. lia.
Qed.


End RendererFacts.

Section RendererClaims.

Variable getink : list data -> result rgb.
Variable png_encode : raster -> list byte.

(** C1.  When every entry has weight zero (in particular when there is
    no entry), the total is replaced by 1, every block width is 0, every
    iteration of the loop leaves the cursor and the image untouched, and
    the call completes and caches the encoding of the untouched black
    image. *)
Theorem render_zero_weights (l : list data) (now : time) (self : AnimatedScenesImage) :
  Forall zero_weight l ->
  total_weight l = Ok 1%Q /\
  Forall (fun e => block_width 1 e = Ok 0) l /\
  Forall (fun e => forall st, draw_block getink 1 st e = Ok st) l /\
  draw_blocks getink 1 l = Ok (0, new_image (Z.to_nat width) (Z.to_nat height)) /\
  create_color_block_image getink png_encode l now self =
    (Ok tt,
     {| _attr_image_last_updated := now;
        _cached_image :=
          Some {| content := png_encode (new_image (Z.to_nat width) (Z.to_nat height));
                  content_type := "image/png" |};
        _config := _config self |}).
Proof.
  intros Hz.
  assert (Htot : total_weight l = Ok 1%Q).
  { assert (Hqs : exists qs, Forall2 (fun e q => weight_of e = Ok q) l qs
                             /\ (Qsum qs == 0)%Q).
    { induction Hz as [|e l (q & Hw & Hq) _ (qs & IH1 & IH2)].
      - exists []. split; [constructor | reflexivity].
      - exists (q :: qs). split; [by constructor|].
        simpl. rewrite Hq, IH2. reflexivity. }
    destruct Hqs as (qs & Hqs & Hsum).
    destruct (sum_weights_from l qs 0 Hqs) as (s & Hs & Hs0).
    unfold total_weight, sum_weights. rewrite Hs. simpl.
    assert (Hs' : (s == 0)%Q) by (rewrite Hs0, Hsum; reflexivity).
    apply Qeq_bool_iff in Hs'. by rewrite Hs'. }
  assert (Hbw : Forall (fun e => block_width 1 e = Ok 0) l).
  { eapply Forall_impl; [exact Hz|]. intros e. apply block_width_zero. }
  assert (Hskip : Forall (fun e => forall st, draw_block getink 1 st e = Ok st) l).
  { eapply Forall_impl; [exact Hbw|]. intros e He st.
    by apply (draw_block_skip getink 1 st e 0). }
  assert (Hloop : forall st, for_each (draw_block getink 1) l st = Ok st).
  { clear -Hskip. induction Hskip as [|e l He _ IH]; intros st; simpl; [done|].
    rewrite He. apply IH. }
  repeat split; try done.
  - apply Hloop.
  - unfold create_color_block_image, render, draw_blocks.
    rewrite Htot. simpl. rewrite Hloop. done.
Qed.

(** C4.  An entry whose computed width is not positive is skipped: its
    iteration leaves the cursor and every pixel as they were, and the
    loop over a list containing it ends in the state that the loop
    without it reaches (for the same total). *)
Theorem skipped_entry_has_no_effect
    (total : Q) (l1 l2 : list data) (color_info : data) (w : Z) :
  block_width total color_info = Ok w -> w <= 0 ->
  (forall st, draw_block getink total st color_info = Ok st) /\
  (forall st, for_each (draw_block getink total) (l1 ++ color_info :: l2) st =
              for_each (draw_block getink total) (l1 ++ l2) st).
Proof.
  intros Hw Hle.
  assert (Hskip : forall st, draw_block getink total st color_info = Ok st)
    by (intros st; by apply (draw_block_skip getink total st color_info w)).
  split; [done|]. intros st. rewrite !for_each_app.
  destruct (for_each (draw_block getink total) l1 st) as [st1|e]; [|done].
  simpl. by rewrite Hskip.
Qed.

(** C10.  Whatever the weights, the cursor starts at 0 and never
    decreases: an iteration leaves it where it was or adds a strictly
    positive width, so the cursor before a later entry is at least the
    cursor before an earlier one. *)
Theorem cursor_never_moves_left
    (total : Q) (l : list data) (i j : nat) (st_i st_j : Z * raster) :
  (i <= j)%nat ->
  for_each (draw_block getink total) (take i l)
           (0, new_image (Z.to_nat width) (Z.to_nat height)) = Ok st_i ->
  for_each (draw_block getink total) (take j l)
           (0, new_image (Z.to_nat width) (Z.to_nat height)) = Ok st_j ->
  0 <= fst st_i <= fst st_j /\
  (forall e st st',
      draw_block getink total st e = Ok st' ->
      fst st' = fst st \/
      exists w, block_width total e = Ok w /\ 0 < w /\ fst st' = fst st + w).
Proof.
  intros Hij Hi Hj. split.
  - assert (Hsplit : take j l = take i l ++ drop i (take j l)).
    { rewrite <- (take_drop i (take j l)) at 1. f_equal.
      rewrite take_take. f_equal. lia. }
    rewrite Hsplit, for_each_app, Hi in Hj. simpl in Hj.
    apply for_each_cursor_le in Hi, Hj. simpl in Hi. lia.
  - intros e [x im] [x' im'] H.
    apply draw_block_Ok_inv in H as (w & Hw & [(_ & -> & _)|(Hlt & -> & _)]).
    + by left.
    + right. by exists w.
Qed.


End RendererClaims.



Section WidthClaims.

Variable getink : list data -> result rgb.


End WidthClaims.

(** ** Pixels *)

Lemma getpixel_rectangle (x0 y0 x1 y1 : Z) (fill : rgb) (im : raster) (x y : nat) :
  getpixel (rectangle x0 y0 x1 y1 fill im) x y =
  (fun p => if in_span y0 y1 y && in_span x0 x1 x then fill else p) <$> getpixel im x y.
Proof.
  unfold getpixel, rectangle. rewrite list_lookup_imap.
  destruct (im !! y) as [row|]; simpl; [|done].
  destruct (in_span y0 y1 y); simpl; [|by destruct (row !! x)].
  rewrite list_lookup_imap. by destruct (row !! x).
Qed.

Lemma getpixel_new_image (w h x y : nat) :
  (x < w)%nat -> (y < h)%nat -> getpixel (new_image w h) x y = Some (0, 0, 0).
Proof.
  intros Hx Hy. unfold getpixel, new_image.
  rewrite lookup_replicate_2 by done. simpl. by rewrite lookup_replicate_2.
Qed.

Section FailureClaims.

Variable getink : list data -> result rgb.
Variable png_encode : raster -> list byte.

(** The pixels of a drawn block: the rectangle covers the columns from
    the cursor to the cursor plus the width, both included, on every row
    of the canvas; every other pixel is as it was. *)
Lemma drawn_block_pixels (total : Q) (x x' : Z) (im im' : raster)
    (color_info : data) (w : Z) :
  block_width total color_info = Ok w -> 0 < w ->
  draw_block getink total (x, im) color_info = Ok (x', im') ->
  exists ink,
    resolve_color getink color_info = Ok ink /\
    forall px py : nat,
      getpixel im' px py =
      (fun p => if in_span 0 height py && in_span x (x + w) px then ink else p)
        <$> getpixel im px py.
Proof.
  intros Hw Hlt H.
  apply draw_block_Ok_inv in H as (w' & Hw' & [(Hle & _)|(_ & _ & ink & Hink & ->)]);
    rewrite Hw in Hw'; simplify_eq; [lia|].
  exists ink. split; [done|]. intros px py. apply getpixel_rectangle.
Qed.

Lemma draw_block_Raise (total : Q) (st : Z * raster) (color_info : data) (w : Z) :
  block_width total color_info = Ok w -> 0 < w ->
  is_ok (resolve_color getink color_info) = false ->
  exists e, draw_block getink total st color_info = Raise e.
Proof.
  intros Hw Hlt Hc. destruct st as [x im]. unfold draw_block. rewrite Hw. simpl.
  destruct (Z.leb_spec w 0); [lia|].
  apply is_ok_false in Hc as (e & Hc). unfold resolve_color in Hc.
  destruct (getitem color_info "color") as [c|]; simpl in *; [|by eauto].
  destruct (tuple c) as [t|]; simpl in *; [|by eauto].
  rewrite Hc. simpl. by eauto.
Qed.

Lemma for_each_draw_Raise (total : Q) (l : list data) (st : Z * raster) :
  Exists (fun color_info =>
            exists w, block_width total color_info = Ok w /\ 0 < w /\
                      is_ok (resolve_color getink color_info) = false) l ->
  exists e, for_each (draw_block getink total) l st = Raise e.
Proof.
  intros H. revert st. induction H as [c l (w & Hw & Hlt & Hc) | c l _ IH]; intros st; simpl.
  - destruct (draw_block_Raise total st c w Hw Hlt Hc) as (e & ->). by exists e.
  - destruct (draw_block getink total st c) as [st'|e]; simpl; [apply IH | by exists e].
Qed.

(** C5, as the code has it.  The call raises, and leaves the cached image
    and its timestamp as they were, when some entry has no numeric
    weight, or when some entry with a positive computed width has a
    colour that cannot be turned into an ink.  (The colour of a skipped
    entry is never looked at.) *)
Theorem malformed_entry_raises
    (l : list data) (now : time) (self : AnimatedScenesImage) :
  (Exists (fun color_info => is_ok (weight_of color_info) = false) l \/
   exists total, total_weight l = Ok total /\
     Exists (fun color_info =>
               exists w, block_width total color_info = Ok w /\ 0 < w /\
                         is_ok (resolve_color getink color_info) = false) l) ->
  exists e, create_color_block_image getink png_encode l now self = (Raise e, self).
Proof.
  unfold create_color_block_image, render. intros [Hw | (total & Htot & Hc)].
  - destruct (sum_weights_Raise l 0 Hw) as (e & He).
    unfold total_weight, sum_weights. rewrite He. simpl. by exists e.
  - rewrite Htot. simpl.
    destruct (for_each_draw_Raise total l
                (0, new_image (Z.to_nat width) (Z.to_nat height)) Hc) as (e & He).
    unfold draw_blocks. rewrite He. simpl. by exists e.
Qed.

End FailureClaims.

(** ** The store: deep copies *)

Lemma rename_val_weaken (m m' : gmap nat nat) (v : pyval) :
  m ⊆ m' -> (forall l : nat, v = VRef l -> is_Some (m !! l)) ->
  rename_val m' v = rename_val m v.
Proof.
  intros Hsub Hv. destruct v as [a|l]; [done|]. simpl.
  destruct (Hv l eq_refl) as [y Hy]. rewrite Hy.
  by rewrite (lookup_weaken m m' l y Hy Hsub).
Qed.

Lemma rename_obj_weaken (m m' : gmap nat nat) (o : pyobj) :
  m ⊆ m' -> (forall r : nat, VRef r ∈ values_of o -> is_Some (m !! r)) ->
  rename_obj m' o = rename_obj m o.
Proof.
  intros Hsub Ho. unfold rename_obj. f_equal.
  apply map_ext_in. intros v Hv. apply rename_val_weaken; [done|].
  intros l ->. apply Ho. by apply list_elem_of_In.
Qed.

Section DeepCopy.

(** The store when [copy.deepcopy] is called. *)
Variable h0 : heap.
Hypothesis h0_closed : closed h0.

Lemma copy_post_refl (m : gmap nat nat) (h : heap) :
  copy_inv h0 m h -> copy_post h0 m h m h.
Proof.
  intros Hi. split; try done.
  - intros l y Hy Hn. congruence.
  - intros y Hy. lia.
Qed.

Lemma copy_post_trans (m m1 m2 : gmap nat nat) (h h1 h2 : heap) :
  copy_post h0 m h m1 h1 -> copy_post h0 m1 h1 m2 h2 -> copy_post h0 m h m2 h2.
Proof.
  intros [Hi1 Hm1 Hl1 Hf1 Hn1 Hr1] [Hi2 Hm2 Hl2 Hf2 Hn2 Hr2]. split.
  - done.
  - by etrans.
  - lia.
  - intros l Hl. rewrite Hf2 by lia. by apply Hf1.
  - intros l y Hy Hn. destruct (m1 !! l) as [y1|] eqn:E1.
    + assert (y1 = y) as ->.
      { pose proof (lookup_weaken m1 m2 l y1 E1 Hm2). congruence. }
      destruct (Hn1 l y E1 Hn) as (Hle & o & Ho & Hy1 & Hrefs).
      split; [done|]. exists o. split; [done|]. split.
      * rewrite Hf2 by (apply (ci_memo _ _ _ Hi1) in E1; lia).
        rewrite Hy1. f_equal. symmetry. by apply rename_obj_weaken.
      * intros r Hr. destruct (Hrefs r Hr) as [yr Hyr]. exists yr.
        by eapply lookup_weaken.
    + destruct (Hn2 l y Hy E1) as (Hle & o & Ho & Hy2 & Hrefs).
      split; [lia|]. by exists o.
  - intros y Hy. destruct (decide (y < length h1)%nat) as [Hlt|Hge].
    + destruct (Hr1 y) as (l & Hl & Hn); [lia|]. exists l. split; [|done].
      by eapply lookup_weaken.
    + destruct (Hr2 y) as (l & Hl & Hn); [lia|]. exists l. split; [done|].
      destruct (m !! l) as [y'|] eqn:E; [|done].
      pose proof (lookup_weaken m m1 l y' E Hm1). congruence.
Qed.

Lemma copy_values_spec copy (vs : list pyval) :
  copy_spec h0 copy ->
  forall m h ys m' h',
    copy_inv h0 m h -> Forall (valid_in h0) vs ->
    copy_values copy vs (m, h) = Some (ys, (m', h')) ->
    copy_post h0 m h m' h' /\ ys = map (rename_val m') vs /\
    (forall l : nat, VRef l ∈ vs -> is_Some (m' !! l)).
Proof.
  intros Hcopy. induction vs as [|v vs IH]; intros m h ys m' h' Hi Hvs H; simpl in H.
  - simplify_eq. split; [by apply copy_post_refl|]. split; [done|].
    intros l Hl. by apply elem_of_nil in Hl.
  - apply Forall_cons in Hvs as [Hv Hvs].
    destruct (copy v (m, h)) as [[v' [m1 h1]]|] eqn:E1; [|done].
    destruct (copy_values copy vs (m1, h1)) as [[vs' [m2 h2]]|] eqn:E2; [|done].
    simplify_eq.
    destruct (Hcopy _ _ _ _ _ _ Hi Hv E1) as (Hp1 & -> & Hd1).
    destruct (IH _ _ _ _ _ (cp_inv _ _ _ _ _ Hp1) Hvs E2) as (Hp2 & -> & Hd2).
    split; [by eapply copy_post_trans|]. split.
    + simpl. f_equal. symmetry. apply rename_val_weaken; [apply Hp2 | done].
    + intros l Hl. apply elem_of_cons in Hl as [Hl|Hl]; [|by apply Hd2].
      destruct (Hd1 l) as [y Hy]; [done|]. exists y.
      eapply lookup_weaken; [done | apply Hp2].
Qed.

Lemma deepcopy_spec (n : nat) : copy_spec h0 (deepcopy n).
Proof.
  induction n as [|n IH]; intros x m h y m' h' Hi Hx H; simpl in H; [done|].
  destruct x as [a|l].
  { simplify_eq. split; [by apply copy_post_refl|]. split; [done|]. intros l; done. }
  destruct (m !! l) as [yl|] eqn:Em.
  { simplify_eq. split; [by apply copy_post_refl|]. simpl. rewrite Em.
    split; [done|]. intros ? [= <-]. by eexists. }
  destruct (h !! l) as [o|] eqn:Eo; [|done].
  destruct (copy_values (deepcopy n) (values_of o)
              (<[l:=length h]> m, h ++ [empty_like o]))
    as [[vs [m1 h1]]|] eqn:Ec; [|done].
  assert (y = VRef (length h) /\ m' = m1 /\
          h' = <[length h := with_values o vs]> h1) as (-> & -> & ->)
    by (by simplify_eq).
  clear H.
  assert (Hl0 : (l < length h0)%nat) by by apply Hx.
  assert (Ho0 : h0 !! l = Some o) by (rewrite <- (ci_prefix _ _ _ Hi) by done; done).
  assert (Hi0 : copy_inv h0 (<[l:=length h]> m) (h ++ [empty_like o])).
  { destruct Hi as [Hp Hl Hm]. split.
    - intros l' Hl'. rewrite lookup_app_l by lia. by apply Hp.
    - rewrite length_app. simpl. lia.
    - intros l' y'. rewrite lookup_insert. case_decide.
      + intros [= <-]. subst l'. rewrite length_app. simpl. lia.
      + intros Hy'. apply Hm in Hy'. rewrite length_app. simpl. lia. }
  assert (Hvs : Forall (valid_in h0) (values_of o)).
  { apply Forall_forall. intros v Hv r ->. by eapply h0_closed. }
  destruct (copy_values_spec _ _ IH _ _ _ _ _ Hi0 Hvs Ec) as (Hp & -> & Hd).
  destruct Hp as [Hi1 Hm1 Hl1 Hf1 Hn1 Hr1].
  rewrite length_app in Hl1, Hn1, Hr1, Hf1. simpl in Hl1, Hn1, Hr1, Hf1.
  assert (Hml : m1 !! l = Some (length h)).
  { eapply lookup_weaken; [|exact Hm1]. by rewrite lookup_insert_eq. }
  split; [split|split].
  - destruct Hi1 as [Hp Hl Hm]. split.
    + intros l' Hl'. rewrite list_lookup_insert_ne by (destruct Hi; lia). by apply Hp.
    + by rewrite length_insert.
    + intros l' y' Hy'. rewrite length_insert. by apply Hm.
  - etrans; [|exact Hm1]. by apply insert_subseteq.
  - rewrite length_insert. lia.
  - intros l' Hl'. rewrite list_lookup_insert_ne by lia.
    rewrite Hf1 by lia. by apply lookup_app_l.
  - intros l' y' Hy' Hn'. destruct (decide (l' = l)) as [->|Hne].
    + assert (y' = length h) as -> by congruence. split; [done|].
      exists o. split; [done|]. split; [|done].
      by rewrite list_lookup_insert_eq by lia.
    + destruct (Hn1 l' y' Hy') as (Hle & o' & Ho' & Hy1 & Hrefs).
      { by rewrite lookup_insert_ne. }
      split; [lia|]. exists o'. split; [done|]. split; [|done].
      by rewrite list_lookup_insert_ne by lia.
  - intros y'. rewrite length_insert. intros Hy'.
    destruct (decide (y' = length h)) as [->|Hne]; [by exists l|].
    destruct (Hr1 y') as (l' & Hl' & Hn'); [lia|]. exists l'. split; [done|].
    rewrite lookup_insert in Hn'. by case_decide.
  - simpl. by rewrite Hml.
  - intros ? [= <-]. by eexists.
Qed.

(** *** Enough fuel *)

Lemma size_memo (m : gmap nat nat) (h : heap) :
  copy_inv h0 m h -> (size m <= length h0)%nat.
Proof.
  intros Hi. rewrite <- (size_dom (D := gset nat)).
  rewrite <- (size_set_seq (C := gset nat) 0 (length h0)).
  apply subseteq_size. intros l Hl. apply elem_of_dom in Hl as [y Hy].
  apply elem_of_set_seq. apply (ci_memo _ _ _ Hi) in Hy. lia.
Qed.

Lemma copy_values_total copy (k : nat) (vs : list pyval) :
  copy_spec h0 copy -> copy_total h0 k copy ->
  forall m h,
    copy_inv h0 m h -> Forall (valid_in h0) vs -> (length h0 - size m < k)%nat ->
    is_Some (copy_values copy vs (m, h)).
Proof.
  intros Hspec Htot. induction vs as [|v vs IH]; intros m h Hi Hvs Hk; simpl.
  - by eexists.
  - apply Forall_cons in Hvs as [Hv Hvs].
    destruct (Htot v m h Hi Hv Hk) as [[v' [m1 h1]] E1]. rewrite E1.
    destruct (Hspec _ _ _ _ _ _ Hi Hv E1) as (Hp & _ & _).
    destruct (IH m1 h1) as [[vs' [m2 h2]] E2]; [apply Hp | done | |].
    + pose proof (map_subseteq_size m m1 (cp_memo _ _ _ _ _ Hp)). lia.
    + rewrite E2. by eexists.
Qed.

Lemma deepcopy_total (n : nat) : copy_total h0 n (deepcopy n).
Proof.
  induction n as [|n IH]; intros x m h Hi Hx Hk; [lia|]. simpl.
  destruct x as [a|l]; [by eexists|].
  destruct (m !! l) as [y|] eqn:Em; [by eexists|].
  assert (Hl0 : (l < length h0)%nat) by by apply Hx.
  destruct (lookup_lt_is_Some_2 h0 l Hl0) as [o Ho0].
  assert (Ho : h !! l = Some o) by (by rewrite (ci_prefix _ _ _ Hi)).
  rewrite Ho.
  assert (Hi0 : copy_inv h0 (<[l:=length h]> m) (h ++ [empty_like o])).
  { destruct Hi as [Hp Hl Hm]. split.
    - intros l' Hl'. rewrite lookup_app_l by lia. by apply Hp.
    - rewrite length_app. simpl. lia.
    - intros l' y'. rewrite lookup_insert. case_decide.
      + intros [= <-]. subst l'. rewrite length_app. simpl. lia.
      + intros Hy'. apply Hm in Hy'. rewrite length_app. simpl. lia. }
  assert (Hvs : Forall (valid_in h0) (values_of o)).
  { apply Forall_forall. intros v Hv r ->. by eapply h0_closed. }
  pose proof (size_memo _ _ Hi0) as Hsz.
  rewrite map_size_insert_None in Hsz by done.
  destruct (copy_values_total (deepcopy n) n (values_of o) (deepcopy_spec n) IH
              _ _ Hi0 Hvs) as [[vs [m1 h1]] Ec].
  { rewrite map_size_insert_None by done. lia. }
  rewrite Ec. by eexists.
Qed.

End DeepCopy.

(** ** Dictionaries *)

Lemma dict_get_cons {V} (k k' : string) (v : V) (d : list (string * V)) :
  dict_get k ((k', v) :: d) = if String.eqb k k' then Some v else dict_get k d.
Proof. unfold dict_get. simpl. by destruct (String.eqb k k'). Qed.

Lemma dict_get_set_eq {V} (k : string) (v : V) (d : list (string * V)) :
  dict_get k (dict_set k v d) = Some v.
Proof.
  induction d as [|[k' v'] d IH]; simpl.
  - by rewrite dict_get_cons, String.eqb_refl.
  - destruct (String.eqb k k') eqn:E; rewrite dict_get_cons, E; [done | apply IH].
Qed.

Lemma dict_get_set_ne {V} (k k0 : string) (v : V) (d : list (string * V)) :
  k <> k0 -> dict_get k0 (dict_set k v d) = dict_get k0 d.
Proof.
  intros Hne. induction d as [|[k' v'] d IH]; simpl.
  - rewrite dict_get_cons. destruct (String.eqb_spec k0 k); [congruence | done].
  - destruct (String.eqb_spec k k') as [->|Hk]; rewrite !dict_get_cons.
    + destruct (String.eqb_spec k0 k'); [congruence | done].
    + by rewrite IH.
Qed.

Lemma dict_set_idemp {V} (k : string) (v : V) (d : list (string * V)) :
  dict_set k v (dict_set k v d) = dict_set k v d.
Proof.
  induction d as [|[k' v'] d IH]; simpl.
  - by rewrite String.eqb_refl.
  - destruct (String.eqb k k') eqn:E; simpl; rewrite E; [done | by rewrite IH].
Qed.

Lemma dict_set_values {V} (k : string) (v : V) (d : list (string * V)) (x : V) :
  x ∈ map snd (dict_set k v d) -> x = v \/ x ∈ map snd d.
Proof.
  induction d as [|[k' v'] d IH]; simpl.
  - intros Hx. apply list_elem_of_singleton in Hx. by left.
  - destruct (String.eqb k k'); simpl; intros Hx; apply elem_of_cons in Hx as [Hx|Hx].
    + by left.
    + right. by apply elem_of_cons; right.
    + right. by apply elem_of_cons; left.
    + destruct (IH Hx); [by left | right; by apply elem_of_cons; right].
Qed.

Lemma zip_fst_snd_map {A B C} (f : B -> C) (items : list (A * B)) :
  zip (map fst items) (map f (map snd items)) = map (fun kv => (fst kv, f (snd kv))) items.
Proof. induction items as [|[a b] items IH]; simpl; [done | by rewrite IH]. Qed.

Lemma rename_obj_dict (m : gmap nat nat) (items : list (string * pyval)) :
  rename_obj m (ODict items) =
  ODict (map (fun kv => (fst kv, rename_val m (snd kv))) items).
Proof. unfold rename_obj. simpl. by rewrite zip_fst_snd_map. Qed.

Lemma values_of_rename_obj (m : gmap nat nat) (o : pyobj) :
  values_of (rename_obj m o) = map (rename_val m) (values_of o).
Proof.
  destruct o as [items|elems]; [|done]. rewrite rename_obj_dict. simpl.
  rewrite !map_map. done.
Qed.

(** ** Running code on the store *)

Lemma closed_snoc (h : heap) (o : pyobj) :
  closed h -> (forall r : nat, VRef r ∈ values_of o -> (r < S (length h))%nat) ->
  closed (h ++ [o]).
Proof.
  intros Hc Ho l o' r Hl Hr. rewrite length_app. simpl.
  destruct (decide (l < length h)%nat) as [Hlt|Hge].
  - rewrite lookup_app_l in Hl by done. pose proof (Hc l o' r Hl Hr). lia.
  - assert (l = length h) as ->.
    { apply lookup_lt_Some in Hl. rewrite length_app in Hl. simpl in Hl. lia. }
    rewrite list_lookup_middle in Hl by done. simplify_eq.
    pose proof (Ho r Hr). lia.
Qed.

Lemma copy_inv_start (h : heap) : copy_inv h ∅ h.
Proof. split; [done | done | intros l y Hy; by rewrite lookup_empty in Hy]. Qed.

Lemma reach_fresh (base : nat) (h : heap) (l l' : nat) :
  fresh_closed base h -> (base <= l)%nat -> reach h l l' -> (base <= l')%nat.
Proof.
  intros Hf Hl Hr. induction Hr as [l|l r l' o Ho Hin _ IH]; [done|].
  apply IH. by eapply Hf.
Qed.

Section EntityFacts.

Variables CONF_COLOR_RGB CONF_COLOR_RGB_DICT CONF_COLOR_TYPE CONF_COLORS
          CONF_COLOR_SELECTOR_MODE COLOR_SELECTOR_RGB_UI : string.

Abbreviation tag_color := (tag_color CONF_COLOR_RGB CONF_COLOR_TYPE).
Abbreviation stamp_obj := (stamp_obj CONF_COLOR_RGB CONF_COLOR_TYPE).
Abbreviation raw_mapping := (raw_mapping CONF_COLOR_RGB_DICT).

Lemma stamp_obj_idemp (o : pyobj) : stamp_obj (stamp_obj o) = stamp_obj o.
Proof. destruct o; simpl; [by rewrite dict_set_idemp | done]. Qed.

Lemma stamp_obj_refs (o : pyobj) (r : nat) :
  VRef r ∈ values_of (stamp_obj o) -> VRef r ∈ values_of o.
Proof.
  destruct o as [d|]; simpl; [|done]. intros H.
  apply dict_set_values in H as [H|H]; [discriminate | done].
Qed.

Lemma tag_color_run (color : pyval) (h : heap) (r : result unit) (h' : heap) :
  tag_color color h = Some (r, h') ->
  (exists e, r = Raise e /\ h' = h) \/
  (exists l d, r = Ok tt /\ color = VRef l /\ h !! l = Some (ODict d) /\
               h' = <[l := stamp_obj (ODict d)]> h).
Proof.
  unfold tag_color, dict_update, bindM, dict_of. intros H.
  destruct color as [a|l]; [left; simplify_eq; by eexists|].
  destruct (h !! l) as [[d|elems]|] eqn:E; [| |done].
  - right. simplify_eq. by exists l, d.
  - left. simplify_eq. by eexists.
Qed.

(** Whatever the outcome of the tagging loop, an object is as it was or
    is a dict that has been stamped. *)
Lemma tag_loop_frame (vs : list pyval) :
  forall h r h',
    for_each_M tag_color vs h = Some (r, h') ->
    length h' = length h /\
    forall l : nat, h' !! l = h !! l \/
                    (VRef l ∈ vs /\ h' !! l = stamp_obj <$> h !! l).
Proof.
  induction vs as [|v vs IH]; intros h r h' H; simpl in H.
  - unfold retM in H. simplify_eq. split; [done|]. intros l. by left.
  - unfold bindM in H. destruct (tag_color v h) as [[[[]|e] h1]|] eqn:E1; [| |done].
    + apply tag_color_run in E1 as [(e & ? & _)|(y & d & _ & -> & Hy & ->)]; [done|].
      apply IH in H as [Hlen Hl]. rewrite length_insert in Hlen. split; [done|].
      intros l. destruct (decide (l = y)) as [->|Hne].
      * right. split; [by apply elem_of_cons; left|].
        assert (Hy1 : <[y:=stamp_obj (ODict d)]> h !! y = Some (stamp_obj (ODict d))).
        { apply list_lookup_insert_eq. by eapply lookup_lt_Some. }
        destruct (Hl y) as [Hs|[_ Hs]]; rewrite Hs, Hy1, Hy; simpl; [done|].
        by rewrite dict_set_idemp.
      * destruct (Hl l) as [Hs|[Hin Hs]]; rewrite Hs, list_lookup_insert_ne by done.
        -- by left.
        -- right. split; [by apply elem_of_cons; right | done].
    + apply tag_color_run in E1 as [(e' & ? & ->)|(y & d & ? & _)]; [|done].
      simplify_eq. split; [done|]. intros l. by left.
Qed.

(** The tagging loop over references to dicts stamps each of them and
    touches nothing else. *)
Lemma tag_loop_dicts (vs : list pyval) :
  forall h,
    Forall (fun v => exists (l : nat) d, v = VRef l /\ h !! l = Some (ODict d)) vs ->
    exists h',
      for_each_M tag_color vs h = Some (Ok tt, h') /\
      length h' = length h /\
      forall l : nat,
        (VRef l ∈ vs -> h' !! l = stamp_obj <$> h !! l) /\
        (VRef l ∉ vs -> h' !! l = h !! l).
Proof.
  induction vs as [|v vs IH]; intros h Hvs; simpl.
  - exists h. split; [done|]. split; [done|]. intros l. split; [|done].
    intros Hl. by apply elem_of_nil in Hl.
  - apply Forall_cons in Hvs as [(y & d & -> & Hy) Hvs].
    unfold bindM at 1. unfold tag_color at 1, dict_update, bindM, dict_of.
    rewrite Hy.
    set (h1 := <[y:=ODict (dict_set CONF_COLOR_TYPE (VAtom (AStr CONF_COLOR_RGB)) d)]> h).
    assert (Hy1 : h1 !! y = Some (stamp_obj (ODict d))).
    { apply list_lookup_insert_eq. by eapply lookup_lt_Some. }
    destruct (IH h1) as (h' & Hrun & Hlen & Hl).
    { eapply Forall_impl; [exact Hvs|]. intros v (l & d' & -> & Hd').
      destruct (decide (l = y)) as [->|Hne].
      - exists y. eexists. split; [done|]. rewrite Hy1. simpl. done.
      - exists l, d'. split; [done|]. subst h1. by rewrite list_lookup_insert_ne. }
    exists h'. split; [done|]. split.
    { rewrite Hlen. subst h1. by rewrite length_insert. }
    pose proof (tag_loop_frame vs h1 _ h' Hrun) as [_ Hfr].
    intros l. destruct (decide (l = y)) as [->|Hne].
    + split; [|intros Hn; exfalso; apply Hn; by apply elem_of_cons; left].
      intros _. destruct (Hfr y) as [Hs|[_ Hs]]; rewrite Hs, Hy1, Hy; simpl; [done|].
      by rewrite dict_set_idemp.
    + destruct (Hl l) as [Hin Hout]. split.
      * intros Hl'. apply elem_of_cons in Hl' as [?|Hl']; [congruence|].
        rewrite (Hin Hl'). subst h1. by rewrite list_lookup_insert_ne.
      * intros Hl'. rewrite Hout.
        -- subst h1. by rewrite list_lookup_insert_ne.
        -- intros ?. apply Hl'. by apply elem_of_cons; right.
Qed.

Lemma tag_loop_total (vs : list pyval) :
  forall h, Forall (valid_in h) vs -> is_Some (for_each_M tag_color vs h).
Proof.
  induction vs as [|v vs IH]; intros h Hvs; simpl; [by eexists|].
  apply Forall_cons in Hvs as [Hv Hvs].
  unfold bindM. destruct (tag_color v h) as [[[[]|e] h1]|] eqn:E1.
  - apply tag_color_run in E1 as [(e & ? & _)|(y & d & _ & -> & Hy & ->)]; [done|].
    apply IH. eapply Forall_impl; [exact Hvs|]. intros v Hv' l Hl.
    rewrite length_insert. by apply Hv'.
  - by eexists.
  - unfold tag_color, dict_update, bindM, dict_of in E1.
    destruct v as [a|l]; [done|].
    destruct (lookup_lt_is_Some_2 h l (Hv l eq_refl)) as [o Ho]. rewrite Ho in E1.
    by destruct o.
Qed.

(** *** [_async_build_colors_from_rgb_dict], step by step *)

Abbreviation build := (_async_build_colors_from_rgb_dict
  CONF_COLOR_RGB CONF_COLOR_RGB_DICT CONF_COLOR_TYPE CONF_COLORS).

Lemma build_unfold (self : AnimatedScenesImage) (h : heap) (cfg : list (string * pyval)) :
  h !! _config self = Some (ODict cfg) ->
  build self h =
    match deepcopy (S (length (h ++ [ODict []]))) (raw_mapping h cfg)
                   (∅, h ++ [ODict []]) with
    | Some (copied, (_, h2)) =>
        match dict_of copied h2 with
        | Some (Ok (_, items), h2') =>
            match for_each_M tag_color (map snd items)
                             (h2' ++ [OList (map snd items)]) with
            | Some (Ok _, h4) =>
                dict_update (VRef (_config self)) CONF_COLORS (VRef (length h2')) h4
            | Some (Raise e, h4) => Some (Raise e, h4)
            | None => None
            end
        | Some (Raise e, h2') => Some (Raise e, h2')
        | None => None
        end
    | None => None
    end.
Proof.
  intros Hc. assert (Hlt : (_config self < length h)%nat) by by eapply lookup_lt_Some.
  unfold _async_build_colors_from_rgb_dict, raw_mapping.
  unfold bindM at 1. unfold new_object at 1.
  unfold bindM at 1. unfold dict_get_default at 1, bindM at 1, dict_of at 1.
  rewrite lookup_app_l by done. rewrite Hc. unfold retM.
  unfold bindM at 1. unfold copy_deepcopy at 1.
  destruct (deepcopy _ _ _) as [[copied [m h2]]|]; [|done].
  unfold bindM at 1. destruct (dict_of copied h2) as [[[[y items]|e] h2']|]; [|done|done].
  unfold bindM at 1. unfold new_object at 1.
  unfold bindM at 1. fold tag_color.
  change (fun color : pyval =>
            dict_update color CONF_COLOR_TYPE (VAtom (AStr CONF_COLOR_RGB)))
    with tag_color.
  by destruct (for_each_M tag_color _ _) as [[[[]|e] h4]|].
Qed.

Lemma dict_get_Some_values {V} (k : string) (d : list (string * V)) (v : V) :
  dict_get k d = Some v -> v ∈ map snd d.
Proof.
  induction d as [|[k' v'] d IH]; [done|]. rewrite dict_get_cons. simpl.
  destruct (String.eqb k k'); intros H.
  - simplify_eq. by apply elem_of_cons; left.
  - apply elem_of_cons; right. by apply IH.
Qed.

Lemma raw_mapping_valid (h : heap) (c : nat) (cfg : list (string * pyval)) :
  closed h -> h !! c = Some (ODict cfg) ->
  valid_in (h ++ [ODict []]) (raw_mapping h cfg).
Proof.
  intros Hcl Hc l Hl. rewrite length_app. simpl. unfold raw_mapping in Hl.
  destruct (dict_get CONF_COLOR_RGB_DICT cfg) as [v|] eqn:E.
  - subst v. apply dict_get_Some_values in E.
    pose proof (Hcl c (ODict cfg) l Hc E). lia.
  - simplify_eq. lia.
Qed.

Lemma renamed_refs_fresh (h1 : heap) (m : gmap nat nat) (h2 : heap)
    (vs : list pyval) (r : nat) :
  copy_post h1 ∅ h1 m h2 ->
  (forall r0 : nat, VRef r0 ∈ vs -> is_Some (m !! r0)) ->
  VRef r ∈ map (rename_val m) vs ->
  (length h1 <= r < length h2)%nat.
Proof.
  intros Hp Hvs Hr. apply list_elem_of_In, in_map_iff in Hr as (v & Hv & Hin).
  apply list_elem_of_In in Hin. destruct v as [a|r0]; [done|].
  destruct (Hvs r0 Hin) as [y Hy]. simpl in Hv. rewrite Hy in Hv. simplify_eq.
  by apply (ci_memo _ _ _ (cp_inv _ _ _ _ _ Hp)) in Hy as [_ ?].
Qed.

(** The two ways a run of the function can go. *)
Lemma build_outcome (self : AnimatedScenesImage) (h : heap) (cfg : list (string * pyval)) :
  closed h -> h !! _config self = Some (ODict cfg) ->
  exists m h2,
    copy_post (h ++ [ODict []]) ∅ (h ++ [ODict []]) m h2 /\
    (((exists e, build self h = Some (Raise e, h2)) /\
      forall (l : nat) items0, raw_mapping h cfg = VRef l ->
                               (h ++ [ODict []]) !! l <> Some (ODict items0)) \/
     (exists (l : nat) items0 (y : nat) r h4,
        raw_mapping h cfg = VRef l /\
        (h ++ [ODict []]) !! l = Some (ODict items0) /\
        m !! l = Some y /\
        h2 !! y = Some (rename_obj m (ODict items0)) /\
        (forall r0 : nat, VRef r0 ∈ map snd items0 -> is_Some (m !! r0)) /\
        for_each_M tag_color (map (rename_val m) (map snd items0))
                   (h2 ++ [OList (map (rename_val m) (map snd items0))])
          = Some (r, h4) /\
        build self h =
          match r with
          | Ok _ =>
              Some (Ok tt,
                    <[_config self :=
                        ODict (dict_set CONF_COLORS (VRef (length h2)) cfg)]> h4)
          | Raise e => Some (Raise e, h4)
          end)).
Proof.
  intros Hcl Hc. set (h1 := h ++ [ODict []]).
  assert (Hlt : (_config self < length h)%nat) by by eapply lookup_lt_Some.
  assert (Hcl1 : closed h1).
  { apply closed_snoc; [done|]. intros r Hr. by apply elem_of_nil in Hr. }
  pose proof (raw_mapping_valid h _ cfg Hcl Hc) as Hraw. fold h1 in Hraw.
  destruct (deepcopy_total h1 Hcl1 (S (length h1)) (raw_mapping h cfg) ∅ h1
              (copy_inv_start h1) Hraw) as [[copied [m h2]] Ecopy].
  { rewrite map_size_empty. lia. }
  destruct (deepcopy_spec h1 Hcl1 _ _ _ _ _ _ _ (copy_inv_start h1) Hraw Ecopy)
    as (Hp & -> & Hdom).
  exists m, h2. split; [done|].
  pose proof (build_unfold self h cfg Hc) as Hb. fold h1 in Hb. rewrite Ecopy in Hb.
  destruct (raw_mapping h cfg) as [a|l] eqn:Eraw.
  { left. simpl in Hb. split; [by eexists | done]. }
  destruct (Hdom l eq_refl) as [y Hy]. simpl in Hb. rewrite Hy in Hb.
  destruct (cp_new _ _ _ _ _ Hp l y Hy (lookup_empty l))
    as (Hyge & o & Ho & Hy2 & Hrefs).
  unfold dict_of in Hb. rewrite Hy2 in Hb. destruct o as [items0|elems].
  2:{ left. unfold rename_obj in Hb. simpl in Hb. split; [by eexists|].
      intros l' items0 [= <-]. fold h1. by rewrite Ho. }
  rewrite rename_obj_dict in Hb.
  assert (Hvals : map snd (map (fun kv => (fst kv, rename_val m (snd kv))) items0)
                  = map (rename_val m) (map snd items0)).
  { rewrite !map_map. done. }
  rewrite Hvals in Hb.
  set (vals := map (rename_val m) (map snd items0)) in *.
  destruct (tag_loop_total vals (h2 ++ [OList vals])) as [[r h4] Etag].
  { apply Forall_forall. intros v Hv r ->. rewrite length_app. simpl.
    pose proof (renamed_refs_fresh h1 m h2 _ r Hp Hrefs Hv). lia. }
  right. exists l, items0, y, r, h4.
  split; [done|]. split; [done|]. split; [done|].
  split; [done|]. split; [done|]. split; [done|].
  rewrite Hb, Etag. destruct r as [[]|e]; [|done].
  unfold dict_update, bindM, dict_of.
  destruct (tag_loop_frame vals _ _ _ Etag) as [Hlen Hfr].
  assert (Hc4 : h4 !! _config self = Some (ODict cfg)).
  { destruct (Hfr (_config self)) as [Hs|[Hin _]].
    - pose proof (cp_len _ _ _ _ _ Hp) as Hl2.
      subst h1. rewrite length_app in Hl2. simpl in Hl2.
      rewrite Hs, lookup_app_l by lia.
      rewrite (cp_frame _ _ _ _ _ Hp) by (rewrite length_app; simpl; lia).
      by rewrite lookup_app_l.
    - pose proof (renamed_refs_fresh h1 m h2 _ _ Hp Hrefs Hin) as Hr.
      subst h1. rewrite length_app in Hr. simpl in Hr. lia. }
  by rewrite Hc4.
Qed.

Lemma copied_store_fresh (h : heap) (m : gmap nat nat) (h2 : heap) :
  copy_post (h ++ [ODict []]) ∅ (h ++ [ODict []]) m h2 ->
  fresh_closed (length h) h2.
Proof.
  intros Hp l o r Hl Ho Hr.
  pose proof (cp_len _ _ _ _ _ Hp) as Hlen. rewrite length_app in Hlen. simpl in Hlen.
  destruct (decide (l = length h)) as [->|Hne].
  - rewrite (cp_frame _ _ _ _ _ Hp) in Ho by (rewrite length_app; simpl; lia).
    rewrite list_lookup_middle in Ho by done. simplify_eq.
    by apply elem_of_nil in Hr.
  - destruct (cp_fresh _ _ _ _ _ Hp l) as (l0 & Hl0 & _).
    { apply lookup_lt_Some in Ho. rewrite length_app. simpl. lia. }
    destruct (cp_new _ _ _ _ _ Hp l0 l Hl0 (lookup_empty l0))
      as (_ & o0 & _ & Ho' & Hrefs).
    rewrite Ho in Ho'. simplify_eq. rewrite values_of_rename_obj in Hr.
    pose proof (renamed_refs_fresh _ m h2 _ r Hp Hrefs Hr) as Hr'.
    rewrite length_app in Hr'. simpl in Hr'. lia.
Qed.

(** C6.  The function never gets stuck on a well-formed store.  Apart
    from the new [CONF_COLORS] slot of the configuration dict itself, no
    object that existed before the call is changed, so the stored colour
    mapping and its entries are as they were, tags included.  The list it
    stores, and everything reachable from it, consists of objects
    created by the call, so a later write to any of them changes no
    object that existed before. *)
Theorem normalized_entries_not_aliased
    (self : AnimatedScenesImage) (h : heap) (cfg : list (string * pyval)) :
  closed h -> h !! _config self = Some (ODict cfg) ->
  CONF_COLORS <> CONF_COLOR_RGB_DICT ->
  exists r h',
    build self h = Some (r, h') /\
    (forall l : nat, (l < length h)%nat -> l <> _config self -> h' !! l = h !! l) /\
    (exists cfg', h' !! _config self = Some (ODict cfg') /\
                  dict_get CONF_COLOR_RGB_DICT cfg' = dict_get CONF_COLOR_RGB_DICT cfg) /\
    (r = Ok tt ->
     exists color_list : nat,
       h' !! _config self =
         Some (ODict (dict_set CONF_COLORS (VRef color_list) cfg)) /\
       forall l' : nat, reach h' color_list l' ->
         (length h <= l')%nat /\
         forall (o : pyobj) (l : nat), (l < length h)%nat ->
           <[l' := o]> h' !! l = h' !! l).
Proof.
  intros Hcl Hc Hkeys.
  assert (Hlt : (_config self < length h)%nat) by by eapply lookup_lt_Some.
  destruct (build_outcome self h cfg Hcl Hc) as (m & h2 & Hp & Hcase).
  pose proof (cp_len _ _ _ _ _ Hp) as Hlen2. rewrite length_app in Hlen2. simpl in Hlen2.
  assert (Hold2 : forall l : nat, (l < length h)%nat -> h2 !! l = h !! l).
  { intros l Hl. rewrite (cp_frame _ _ _ _ _ Hp) by (rewrite length_app; simpl; lia).
    by rewrite lookup_app_l. }
  destruct Hcase as [((e & Hrun) & _)|(l0 & items0 & y & r & h4 & _ & _ & _ & _ & Hrefs & Etag & Hrun)].
  { exists (Raise e), h2. split; [done|]. split; [by intros l Hl _; apply Hold2|].
    split; [|done]. exists cfg. by rewrite Hold2. }
  set (vals := map (rename_val m) (map snd items0)) in *.
  destruct (tag_loop_frame vals _ _ _ Etag) as [Hlen4 Hfr].
  rewrite length_app in Hlen4. simpl in Hlen4.
  assert (Hold4 : forall l : nat, (l < length h)%nat -> h4 !! l = h !! l).
  { intros l Hl. destruct (Hfr l) as [Hs|[Hin _]].
    - rewrite Hs, lookup_app_l by lia. by apply Hold2.
    - pose proof (renamed_refs_fresh _ m h2 _ _ Hp Hrefs Hin) as Hr.
      rewrite length_app in Hr. simpl in Hr. lia. }
  destruct r as [[]|e].
  2:{ exists (Raise e), h4. split; [done|]. split; [by intros l Hl _; apply Hold4|].
      split; [|done]. exists cfg. by rewrite Hold4. }
  eexists _, _. split; [exact Hrun|].
  assert (Hc5 : <[_config self:=ODict (dict_set CONF_COLORS (VRef (length h2)) cfg)]> h4
                  !! _config self
                = Some (ODict (dict_set CONF_COLORS (VRef (length h2)) cfg))).
  { apply list_lookup_insert_eq. lia. }
  split; [|split].
  - intros l Hl Hne. rewrite list_lookup_insert_ne by done. by apply Hold4.
  - eexists. split; [exact Hc5|]. by apply dict_get_set_ne.
  - intros _. exists (length h2). split; [exact Hc5|].
    assert (Hfresh : fresh_closed (length h)
              (<[_config self:=ODict (dict_set CONF_COLORS (VRef (length h2)) cfg)]> h4)).
    { intros l o r Hl Ho Hr. rewrite list_lookup_insert_ne in Ho by lia.
      assert (Ho3 : exists o3, (h2 ++ [OList vals]) !! l = Some o3 /\
                               VRef r ∈ values_of o3).
      { destruct (Hfr l) as [Hs|[_ Hs]]; rewrite Hs in Ho.
        - by exists o.
        - destruct ((h2 ++ [OList vals]) !! l) as [o3|]; [|done].
          simpl in Ho. simplify_eq. exists o3. split; [done|].
          by apply stamp_obj_refs. }
      destruct Ho3 as (o3 & Ho3 & Hr3).
      destruct (decide (l < length h2)%nat) as [Hl2|Hl2].
      - rewrite lookup_app_l in Ho3 by done.
        by eapply (copied_store_fresh h m h2 Hp l o3 r).
      - assert (l = length h2) as ->.
        { apply lookup_lt_Some in Ho3. rewrite length_app in Ho3. simpl in Ho3. lia. }
        rewrite list_lookup_middle in Ho3 by done. simplify_eq. simpl in Hr3.
        pose proof (renamed_refs_fresh _ m h2 _ _ Hp Hrefs Hr3) as Hr'.
        rewrite length_app in Hr'. simpl in Hr'. lia. }
    intros l' Hreach.
    assert (Hl' : (length h <= l')%nat) by (eapply reach_fresh; [exact Hfresh| |exact Hreach]; lia).
    split; [done|]. intros o l Hl. apply list_lookup_insert_ne. lia.
Qed.

End EntityFacts.

(** ** Reading the store as a tree *)

Lemma mapM_items (f : pyval -> option data)
    (items : list (string * pyval)) (ditems : list (string * data)) :
  mapM (fun kv => pair (fst kv) <$> f (snd kv)) items = Some ditems <->
  Forall2 (items_load f) items ditems.
Proof.
  rewrite mapM_Some. split; intros H; (eapply Forall2_impl; [exact H|]);
    intros [k v] [k' d]; unfold items_load; simpl.
  - destruct (f v); simpl; intros ?; by simplify_eq.
  - intros [-> ->]. done.
Qed.

Lemma load_ref_dict (n : nat) (h : heap) (l : nat) (items : list (string * pyval)) :
  h !! l = Some (ODict items) ->
  load (S n) h (VRef l) =
  DDict <$> mapM (fun kv => pair (fst kv) <$> load n h (snd kv)) items.
Proof. intros H. simpl. by rewrite H. Qed.

Lemma load_ref_list (n : nat) (h : heap) (l : nat) (elems : list pyval) :
  h !! l = Some (OList elems) ->
  load (S n) h (VRef l) = DList <$> mapM (load n h) elems.
Proof. intros H. simpl. by rewrite H. Qed.

Lemma load_dict_inv (n : nat) (h : heap) (v : pyval) (fields : list (string * data)) :
  load n h v = Some (DDict fields) ->
  exists (l : nat) items (n' : nat),
    v = VRef l /\ n = S n' /\ h !! l = Some (ODict items) /\
    Forall2 (items_load (load n' h)) items fields.
Proof.
  destruct n as [|n']; destruct v as [a|l]; try done. simpl.
  destruct (h !! l) as [[items|elems]|] eqn:E; [| |done].
  - intros H. apply fmap_Some in H as (ditems & H & [= ->]).
    exists l, items, n'. by rewrite <- mapM_items.
  - intros H. by apply fmap_Some in H as (? & _ & ?).
Qed.

(** Two stores that hold the same lists give the same dict-free trees. *)
Lemma load_dict_free_agree (h h' : heap) :
  (forall (l : nat) elems, h !! l = Some (OList elems) -> h' !! l = Some (OList elems)) ->
  forall n v t, load n h v = Some t -> dict_free t = true -> load n h' v = Some t.
Proof.
  intros Hagree. induction n as [|n IH]; intros v t Hl Ht; destruct v as [a|l]; try done.
  simpl in Hl. destruct (h !! l) as [[items|elems]|] eqn:E; [| |done].
  - apply fmap_Some in Hl as (? & _ & ->). done.
  - apply fmap_Some in Hl as (ts & Hts & ->). simpl in Ht.
    rewrite (load_ref_list n h' l elems) by by apply Hagree.
    apply fmap_Some. exists ts. split; [|done].
    apply mapM_Some. apply mapM_Some in Hts.
    rewrite forallb_forall in Ht. clear E.
    induction Hts as [|x t xs ts Hx _ IHts]; constructor.
    + apply IH; [done|]. apply Ht, in_eq.
    + apply IHts. intros t' Ht'. by apply Ht, in_cons.
Qed.

(** More objects at the end of the store do not change what is read. *)
Lemma load_app (h k : heap) :
  forall n v t, load n h v = Some t -> load n (h ++ k) v = Some t.
Proof.
  induction n as [|n IH]; intros v t Hl; destruct v as [a|l]; try done.
  simpl in Hl. destruct (h !! l) as [[items|elems]|] eqn:E; [| |done].
  - apply fmap_Some in Hl as (ditems & Hd & ->).
    rewrite (load_ref_dict n (h ++ k) l items) by by apply lookup_app_l_Some.
    apply fmap_Some. exists ditems. split; [|done].
    apply mapM_items. apply mapM_items in Hd.
    eapply Forall2_impl; [exact Hd|]. intros kv dkv [? ?]. split; [done|]. by apply IH.
  - apply fmap_Some in Hl as (ts & Hts & ->).
    rewrite (load_ref_list n (h ++ k) l elems) by by apply lookup_app_l_Some.
    apply fmap_Some. exists ts. split; [|done].
    apply mapM_Some. apply mapM_Some in Hts.
    eapply Forall2_impl; [exact Hts|]. intros x t'. apply IH.
Qed.

(** A finished deep copy reads like the original. *)
Lemma load_copy (h1 : heap) (m : gmap nat nat) (h2 : heap) :
  copy_post h1 ∅ h1 m h2 ->
  forall n v,
    (forall l : nat, v = VRef l -> is_Some (m !! l)) ->
    load n h2 (rename_val m v) = load n h1 v.
Proof.
  intros Hp. induction n as [|n IH]; intros v Hv; destruct v as [a|l]; try done.
  - destruct (Hv l eq_refl) as [y Hy]. simpl. by rewrite Hy.
  - destruct (Hv l eq_refl) as [y Hy]. simpl rename_val. rewrite Hy.
    destruct (cp_new _ _ _ _ _ Hp l y Hy (lookup_empty l)) as (_ & o & Ho & Hy2 & Hrefs).
    destruct o as [items|elems].
    + rewrite rename_obj_dict in Hy2.
      rewrite (load_ref_dict n h2 y _ Hy2), (load_ref_dict n h1 l _ Ho). f_equal.
      simpl in Hrefs. clear Ho Hy2.
      induction items as [|[k v] items IHi]; [done|].
      simpl. rewrite IH.
      2:{ intros r ->. apply Hrefs. simpl. by apply elem_of_cons; left. }
      rewrite IHi; [done|]. intros r Hr. apply Hrefs. simpl. by apply elem_of_cons; right.
    + unfold rename_obj in Hy2. simpl in Hy2.
      rewrite (load_ref_list n h2 y _ Hy2), (load_ref_list n h1 l _ Ho). f_equal.
      simpl in Hrefs. clear Ho Hy2.
      induction elems as [|v elems IHe]; [done|].
      simpl. rewrite IH.
      2:{ intros r ->. apply Hrefs. by apply elem_of_cons; left. }
      rewrite IHe; [done|]. intros r Hr. apply Hrefs. by apply elem_of_cons; right.
Qed.

Lemma items_load_dict_set (f : pyval -> option data) (k : string) (v : pyval) (d : data)
    (items : list (string * pyval)) (ditems : list (string * data)) :
  Forall2 (items_load f) items ditems -> f v = Some d ->
  Forall2 (items_load f) (dict_set k v items) (dict_set k d ditems).
Proof.
  intros H Hv. induction H as [|[k1 v1] [k2 d1] items ditems [Hk Hd] Hrest IH]; simpl.
  - constructor; [split; simpl; done | constructor].
  - simpl in Hk, Hd. subst k2. destruct (String.eqb k k1).
    + constructor; [split; simpl; done | done].
    + constructor; [split; simpl; done | done].
Qed.

Lemma load_atom (n : nat) (h : heap) (a : atom) : load n h (VAtom a) = Some (DAtom a).
Proof. by destruct n. Qed.

Lemma Forall2_map_both {A B A' B'} (R : A' -> B' -> Prop) (f : A -> A') (g : B -> B')
    (l : list A) (k : list B) :
  Forall2 (fun a b => R (f a) (g b)) l k -> Forall2 R (map f l) (map g k).
Proof. induction 1; simpl; by constructor. Qed.

Lemma Forall2_combine {A B} (R R' : A -> B -> Prop) (P : A -> Prop) (Q : B -> Prop)
    (l : list A) (k : list B) :
  (forall a b, R a b -> P a -> Q b -> R' a b) ->
  Forall2 R l k -> Forall P l -> Forall Q k -> Forall2 R' l k.
Proof.
  intros HR H. induction H as [|a b l k Hab _ IH]; intros HP HQ; [constructor|].
  apply Forall_cons in HP as [Ha HP]. apply Forall_cons in HQ as [Hb HQ].
  constructor; [by apply HR | by apply IH].
Qed.

Lemma Forall2_left {A B} (P : A -> Prop) (l : list A) (k : list B) :
  Forall2 (fun a _ => P a) l k -> Forall P l.
Proof. induction 1; by constructor. Qed.

Lemma items_load_rename (f g : pyval -> option data) (ren : pyval -> pyval)
    (fitems : list (string * pyval)) (fields : list (string * data)) :
  (forall v t, v ∈ map snd fitems -> f v = Some t -> dict_free t = true ->
               g (ren v) = Some t) ->
  Forall2 (items_load f) fitems fields ->
  Forall (fun fd => dict_free (snd fd) = true) fields ->
  Forall2 (items_load g) (map (fun kv => (fst kv, ren (snd kv))) fitems) fields.
Proof.
  intros Hv H. induction H as [|[k v] [k' t] fitems fields [Hk Ht] Hrest IH]; intros Hfree.
  - constructor.
  - apply Forall_cons in Hfree as [Hfree1 Hfree]. simpl in *. constructor.
    + split; simpl; [done|]. apply Hv; [by apply elem_of_cons; left | done | done].
    + apply IH; [|done]. intros v' t' Hin. apply Hv. by apply elem_of_cons; right.
Qed.

Section NormalizerClaims.

Variables CONF_COLOR_RGB CONF_COLOR_RGB_DICT CONF_COLOR_TYPE CONF_COLORS : string.

Abbreviation build := (_async_build_colors_from_rgb_dict
  CONF_COLOR_RGB CONF_COLOR_RGB_DICT CONF_COLOR_TYPE CONF_COLORS).
Abbreviation tag_color := (tag_color CONF_COLOR_RGB CONF_COLOR_TYPE).
Abbreviation stamp_obj := (stamp_obj CONF_COLOR_RGB CONF_COLOR_TYPE).
Abbreviation stamp_data := (stamp_data CONF_COLOR_RGB CONF_COLOR_TYPE).

(** C7.  When the stored mapping reads as a dict of entry objects, the
    function completes and stores under [CONF_COLORS] a list that reads
    as the mapping's values, in the mapping's order and without its
    keys, each with the type tag set to [CONF_COLOR_RGB]. *)
Theorem mapping_values_in_order_tagged
    (self : AnimatedScenesImage) (h : heap) (cfg : list (string * pyval))
    (mapping : nat) (n : nat) (ditems : list (string * data)) :
  closed h -> h !! _config self = Some (ODict cfg) ->
  dict_get CONF_COLOR_RGB_DICT cfg = Some (VRef mapping) ->
  load (S (S n)) h (VRef mapping) = Some (DDict ditems) ->
  Forall (fun kv => flat_entry (snd kv)) ditems ->
  exists h' (color_list : nat),
    build self h = Some (Ok tt, h') /\
    h' !! _config self = Some (ODict (dict_set CONF_COLORS (VRef color_list) cfg)) /\
    load (S (S n)) h' (VRef color_list) =
      Some (DList (map (fun kv => stamp_data (snd kv)) ditems)).
Proof.
  intros Hcl Hc Hget Hload Hflat.
  assert (Hlt : (_config self < length h)%nat) by by eapply lookup_lt_Some.
  apply load_dict_inv in Hload as (? & items0 & ? & [= <-] & [= <-] & Hm & Hitems).
  destruct (build_outcome CONF_COLOR_RGB CONF_COLOR_RGB_DICT CONF_COLOR_TYPE CONF_COLORS
              self h cfg Hcl Hc) as (m & h2 & Hp & Hcase).
  assert (Hraw : raw_mapping CONF_COLOR_RGB_DICT h cfg = VRef mapping)
    by (unfold raw_mapping; by rewrite Hget).
  set (h1 := h ++ [ODict []]) in *.
  assert (Hm1 : h1 !! mapping = Some (ODict items0)) by by apply lookup_app_l_Some.
  destruct Hcase as [(_ & Hno)|(l & items0' & y & r & h4 & Hl & Hl1 & Hy & Hy2 & Hrefs & Etag & Hrun)].
  { by destruct (Hno mapping items0 Hraw). }
  rewrite Hraw in Hl. injection Hl as <-. rewrite Hm1 in Hl1. injection Hl1 as <-.
  set (vals := map (rename_val m) (map snd items0)) in *.
  pose proof (cp_len _ _ _ _ _ Hp) as Hlen2.
  assert (Hlen1 : length h1 = S (length h)) by (subst h1; rewrite length_app; simpl; lia).
  assert (Hold2 : forall l : nat, (l < length h)%nat -> h2 !! l = h !! l).
  { intros l Hl. rewrite (cp_frame _ _ _ _ _ Hp) by lia. by apply lookup_app_l. }
  (* every value of the mapping is a dict that has been copied *)
  assert (Hent : Forall (fun kv =>
            forall fields, load (S n) h (snd kv) = Some (DDict fields) ->
              exists (e : nat) fitems (e' : nat),
                snd kv = VRef e /\ h !! e = Some (ODict fitems) /\
                Forall2 (items_load (load n h)) fitems fields /\
                m !! e = Some e' /\
                h2 !! e' = Some (rename_obj m (ODict fitems)) /\
                (forall r : nat, VRef r ∈ map snd fitems -> is_Some (m !! r)) /\
                VRef e' ∈ vals)
            items0).
  { apply Forall_forall. intros [k v] Hin fields Hv. cbn [fst snd] in *.
    apply load_dict_inv in Hv as (e & fitems & ? & -> & [= <-] & He & Hf).
    destruct (Hrefs e) as [e' He'].
    { apply list_elem_of_In, in_map_iff. exists (k, VRef e). split; [done|].
      by apply list_elem_of_In. }
    destruct (cp_new _ _ _ _ _ Hp e e' He' (lookup_empty e)) as (_ & o & Ho & He2 & Hr).
    assert (o = ODict fitems) as ->.
    { subst h1. rewrite (lookup_app_l_Some _ _ _ _ He) in Ho. by simplify_eq. }
    exists e, fitems, e'. repeat split; try done.
    apply list_elem_of_In, in_map_iff. exists (VRef e). simpl. rewrite He'.
    split; [done|]. apply in_map_iff. exists (k, VRef e). split; [done|].
    by apply list_elem_of_In. }
  (* the tagging loop completes *)
  destruct (tag_loop_dicts CONF_COLOR_RGB CONF_COLOR_TYPE vals (h2 ++ [OList vals]))
    as (h4' & Etag' & Hlen4 & Htag).
  { subst vals. rewrite map_map. apply Forall_map.
    apply (Forall2_left _ items0 ditems).
    eapply Forall2_combine; [|exact Hitems|exact Hent|exact Hflat].
    intros [k v] [k' d] [_ Hd] He (fields & Hf & _). cbn [fst snd] in *. subst d.
    destruct (He fields Hd) as (e & fitems & e' & -> & _ & _ & He' & He2 & _ & _).
    simpl. rewrite He'. exists e'. eexists. split; [done|].
    rewrite rename_obj_dict in He2. by apply lookup_app_l_Some. }
  rewrite Etag' in Etag. injection Etag as <- <-.
  rewrite length_app in Hlen4. simpl in Hlen4.
  eexists _, _. split; [exact Hrun|].
  set (h5 := <[_config self:=ODict (dict_set CONF_COLORS (VRef (length h2)) cfg)]> h4').
  split. { apply list_lookup_insert_eq. lia. }
  assert (Hvals_range : forall r : nat, VRef r ∈ vals -> (length h1 <= r < length h2)%nat).
  { intros r Hr. by eapply renamed_refs_fresh. }
  assert (H5 : forall l : nat, l <> _config self -> h5 !! l = h4' !! l).
  { intros l Hne. subst h5. by rewrite list_lookup_insert_ne. }
  assert (Hlist : h5 !! length h2 = Some (OList vals)).
  { rewrite H5 by lia. destruct (Htag (length h2)) as [_ Hout]. rewrite Hout.
    - by apply list_lookup_middle.
    - intros Hin. apply Hvals_range in Hin. lia. }
  assert (Hagree : forall (l : nat) elems,
             h2 !! l = Some (OList elems) -> h5 !! l = Some (OList elems)).
  { intros l elems Hl2.
    assert (Hne : l <> _config self).
    { intros ->. rewrite Hold2, Hc in Hl2 by done. done. }
    rewrite H5 by done.
    destruct (tag_loop_frame CONF_COLOR_RGB CONF_COLOR_TYPE vals _ _ _ Etag') as [_ Hfr].
    destruct (Hfr l) as [Hs|[_ Hs]]; rewrite Hs, (lookup_app_l_Some _ _ _ _ Hl2); done. }
  rewrite (load_ref_list (S n) h5 _ vals Hlist). apply fmap_Some.
  eexists. split; [|done]. apply mapM_Some.
  subst vals. rewrite map_map. apply Forall2_map_both.
  assert (Hent5 : Forall (fun kv =>
            forall fields, load (S n) h (snd kv) = Some (DDict fields) ->
              Forall (fun fd => dict_free (snd fd) = true) fields ->
              load (S n) h5 (rename_val m (snd kv)) = Some (stamp_data (DDict fields)))
            items0).
  { eapply Forall_impl; [exact Hent|]. intros [k v] He fields Hv Hfree. cbn [fst snd] in *.
    destruct (He fields Hv) as (e & fitems & e' & -> & Hhe & Hf & He' & He2 & Hr & Hin).
    unfold rename_val at 1. rewrite He'.
    assert (He5 : h5 !! e' = Some (stamp_obj (rename_obj m (ODict fitems)))).
    { rewrite H5 by (apply Hvals_range in Hin; lia).
      destruct (Htag e') as [Hs _]. rewrite (Hs Hin).
      by rewrite (lookup_app_l_Some _ _ _ _ He2). }
    rewrite rename_obj_dict in He5. simpl in He5.
    rewrite (load_ref_dict n h5 e' _ He5). apply fmap_Some.
    eexists. split; [|done]. apply mapM_items.
    apply items_load_dict_set; [|apply load_atom].
    apply (items_load_rename (load n h)); [|done|done].
    intros v t Hvin Hvt Hvfree.
    apply (load_dict_free_agree h2 h5 Hagree); [|done].
    rewrite (load_copy h1 m h2 Hp).
    - by apply load_app.
    - intros r ->. by apply Hr. }
  eapply Forall2_combine; [|exact Hitems|exact Hent5|exact Hflat].
  intros [k v] [k' d] [_ Hd] He (fields & Hf & Hfree). cbn [fst snd] in *. subst d.
  by apply He.
Qed.

End NormalizerClaims.

Section AddedToHassClaims.

Variables CONF_COLOR_RGB CONF_COLOR_RGB_DICT CONF_COLOR_TYPE CONF_COLORS
          CONF_COLOR_SELECTOR_MODE COLOR_SELECTOR_RGB_UI : string.
Variable getink : list data -> result rgb.
Variable png_encode : raster -> list byte.

Lemma scene_colors_of_empty_list (self : AnimatedScenesImage) (h : heap)
    (cfg : list (string * pyval)) (v : pyval) :
  h !! _config self = Some (ODict cfg) ->
  match dict_get CONF_COLORS cfg with Some x => x | None => VRef (length h) end = v ->
  (forall l : nat, v = VRef l -> (h ++ [OList []]) !! l = Some (OList [])) ->
  (exists l : nat, v = VRef l) ->
  scene_colors_of CONF_COLORS self h = Some (Ok [], h ++ [OList []]).
Proof.
  intros Hc Hv Hl (l & ->).
  assert (Hlt : (_config self < length h)%nat) by by eapply lookup_lt_Some.
  unfold scene_colors_of, bindM, new_object, dict_get_default, bindM, dict_of, retM.
  rewrite lookup_app_l by done. rewrite Hc, Hv.
  rewrite length_app. simpl length. rewrite Nat.add_1_r.
  rewrite (load_ref_list _ _ l [] (Hl l eq_refl)). done.
Qed.

(** C8.  When the configuration holds neither a colour list nor a colour
    mapping, normalisation hands the empty list to the renderer without
    raising, whatever the selector mode is, and the renderer caches the
    image drawn for the empty list. *)
Theorem no_colors_normalize_empty
    (now : time) (self : AnimatedScenesImage) (h : heap) (cfg : list (string * pyval)) :
  closed h -> h !! _config self = Some (ODict cfg) ->
  dict_get CONF_COLORS cfg = None -> dict_get CONF_COLOR_RGB_DICT cfg = None ->
  exists h',
    normalize CONF_COLOR_RGB CONF_COLOR_RGB_DICT CONF_COLOR_TYPE CONF_COLORS
              CONF_COLOR_SELECTOR_MODE COLOR_SELECTOR_RGB_UI self h
      = Some (Ok [], h') /\
    async_added_to_hass CONF_COLOR_RGB CONF_COLOR_RGB_DICT CONF_COLOR_TYPE CONF_COLORS
              CONF_COLOR_SELECTOR_MODE COLOR_SELECTOR_RGB_UI getink png_encode
              now self h
      = Some (Ok tt,
              {| _attr_image_last_updated := now;
                 _cached_image :=
                   Some {| content :=
                             png_encode (new_image (Z.to_nat width) (Z.to_nat height));
                           content_type := "image/png" |};
                 _config := _config self |},
              h').
Proof.
  intros Hcl Hc Hcolors Hdict.
  assert (Hlt : (_config self < length h)%nat) by by eapply lookup_lt_Some.
  assert (Hnorm : exists h',
    normalize CONF_COLOR_RGB CONF_COLOR_RGB_DICT CONF_COLOR_TYPE CONF_COLORS
              CONF_COLOR_SELECTOR_MODE COLOR_SELECTOR_RGB_UI self h
      = Some (Ok [], h')).
  { assert (Hskip : bindM (retM tt) (fun _ => scene_colors_of CONF_COLORS self) h
                    = Some (Ok [], h ++ [OList []])).
    { unfold bindM, retM.
      apply (scene_colors_of_empty_list self h cfg (VRef (length h))); [done| | |by eexists].
      - by rewrite Hcolors.
      - intros l [= <-]. by apply list_lookup_middle. }
    unfold normalize. unfold bindM at 1.
    unfold dict_get_default at 1, bindM at 1, dict_of at 1, retM at 1. rewrite Hc.
    destruct (match dict_get CONF_COLOR_SELECTOR_MODE cfg with
              | Some v => v | None => VAtom ANone end) as [[| | | |s]|];
      try (eexists; exact Hskip).
    destruct (String.eqb s COLOR_SELECTOR_RGB_UI); [|eexists; exact Hskip].
    destruct (build_outcome CONF_COLOR_RGB CONF_COLOR_RGB_DICT CONF_COLOR_TYPE
                CONF_COLORS self h cfg Hcl Hc) as (m & h2 & Hp & Hcase).
    assert (Hraw : raw_mapping CONF_COLOR_RGB_DICT h cfg = VRef (length h))
      by (unfold raw_mapping; by rewrite Hdict).
    assert (Hempty : (h ++ [ODict []]) !! length h = Some (ODict []))
      by by apply list_lookup_middle.
    destruct Hcase as [(_ & Hno)|(l & items0 & y & r & h4 & Hl & Hl1 & _ & _ & _ & Etag & Hrun)].
    { by destruct (Hno (length h) [] Hraw). }
    rewrite Hraw in Hl. injection Hl as <-. rewrite Hempty in Hl1. injection Hl1 as <-.
    simpl in Etag. unfold retM in Etag. injection Etag as <- <-.
    unfold bindM at 1. rewrite Hrun.
    set (h5 := <[_config self := _]> (h2 ++ [OList []])).
    pose proof (cp_len _ _ _ _ _ Hp) as Hlen2. rewrite length_app in Hlen2. simpl in Hlen2.
    exists (h5 ++ [OList []]).
    apply (scene_colors_of_empty_list self h5
             (dict_set CONF_COLORS (VRef (length h2)) cfg) (VRef (length h2))).
    - subst h5. apply list_lookup_insert_eq. rewrite length_app. simpl. lia.
    - by rewrite dict_get_set_eq.
    - intros l [= <-]. apply lookup_app_l_Some. subst h5.
      rewrite list_lookup_insert_ne by lia. by apply list_lookup_middle.
    - by eexists. }
  destruct Hnorm as (h' & Hnorm). exists h'. split; [done|].
  unfold async_added_to_hass. rewrite Hnorm. done.
Qed.

End AddedToHassClaims.

(** ** The drawn image *)

Lemma fmap_keep {A} (o : option A) : (fun p : A => p) <$> o = o.
Proof. by destruct o. Qed.

Lemma in_span_spec (lo hi : Z) (i : nat) :
  in_span lo hi i = true <-> lo <= Z.of_nat i <= hi.
Proof. unfold in_span. rewrite andb_true_iff, !Z.leb_le. done. Qed.

Lemma in_span_false (lo hi : Z) (i : nat) :
  Z.of_nat i < lo \/ hi < Z.of_nat i -> in_span lo hi i = false.
Proof.
  intros H. destruct (in_span lo hi i) eqn:E; [|done].
  apply in_span_spec in E. lia.
Qed.

Lemma new_image_shape (w h : nat) : canvas_shape w h (new_image w h).
Proof.
  unfold canvas_shape, new_image. split; [apply length_replicate|].
  apply Forall_forall. intros row Hrow. apply elem_of_replicate in Hrow as [-> _].
  apply length_replicate.
Qed.

Lemma rectangle_shape (w h : nat) (x0 y0 x1 y1 : Z) (fill : rgb) (im : raster) :
  canvas_shape w h im -> canvas_shape w h (rectangle x0 y0 x1 y1 fill im).
Proof.
  intros [Hh Hw]. unfold canvas_shape, rectangle. split; [by rewrite length_imap|].
  apply Forall_lookup_2. intros y row Hrow. rewrite list_lookup_imap in Hrow.
  destruct (im !! y) as [row0|] eqn:E; [|done]. simpl in Hrow.
  assert (Hrow0 : length row0 = w).
  { eapply Forall_lookup_1 in Hw; [exact Hw | exact E]. }
  destruct (in_span y0 y1 y); simplify_eq; [by rewrite length_imap | done].
Qed.

Lemma canvas_shape_pixel (w h : nat) (im : raster) (px py : nat) :
  canvas_shape w h im -> (px < w)%nat -> (py < h)%nat -> is_Some (getpixel im px py).
Proof.
  intros [Hh Hw] Hx Hy. unfold getpixel.
  destruct (lookup_lt_is_Some_2 im py) as [row Hrow]; [lia|]. rewrite Hrow. simpl.
  apply lookup_lt_is_Some_2. eapply Forall_lookup_1 in Hw; [|exact Hrow]. simpl in Hw. lia.
Qed.

Section ImageFacts.

Variable getink : list data -> result rgb.
Variable png_encode : raster -> list byte.

Lemma draw_block_shape (w h : nat) (total : Q) (st st' : Z * raster) (e : data) :
  draw_block getink total st e = Ok st' ->
  canvas_shape w h (snd st) -> canvas_shape w h (snd st').
Proof.
  destruct st as [x im], st' as [x' im']. intros H Hs.
  apply draw_block_Ok_inv in H as (bw & _ & [(_ & _ & ->)|(_ & _ & ink & _ & ->)]);
    [done | by apply rectangle_shape].
Qed.

Lemma for_each_shape (w h : nat) (total : Q) (l : list data) (st st' : Z * raster) :
  for_each (draw_block getink total) l st = Ok st' ->
  canvas_shape w h (snd st) -> canvas_shape w h (snd st').
Proof.
  revert st. induction l as [|e l IH]; intros st H Hs; simpl in H.
  - by simplify_eq.
  - apply bind_Ok_inv in H as (st1 & H1 & H2).
    eapply IH; [exact H2|]. by eapply draw_block_shape.
Qed.

(** X1.  Whatever is drawn, and however far a rectangle reaches beyond the
    right edge, the image that is encoded has 100 rows of 500 pixels. *)
Theorem render_canvas_size (l : list data) (im : raster) :
  render getink l = Ok im ->
  canvas_shape (Z.to_nat width) (Z.to_nat height) im.
Proof.
  unfold render, draw_blocks. intros H.
  apply bind_Ok_inv in H as (total & _ & H).
  apply bind_Ok_inv in H as (st & Hst & H). simplify_eq.
  eapply for_each_shape; [exact Hst|]. apply new_image_shape.
Qed.

(** The loop never touches a column to the left of its cursor. *)
Lemma for_each_left_untouched (total : Q) (l : list data) (st st' : Z * raster)
    (px py : nat) :
  for_each (draw_block getink total) l st = Ok st' ->
  Z.of_nat px < fst st ->
  getpixel (snd st') px py = getpixel (snd st) px py.
Proof.
  revert st. induction l as [|e l IH]; intros st H Hpx; simpl in H.
  - by simplify_eq.
  - apply bind_Ok_inv in H as ([x1 im1] & H1 & H2). destruct st as [x im].
    apply draw_block_Ok_inv in H1 as (bw & _ & [(_ & -> & ->)|(Hbw & -> & ink & _ & ->)]).
    + by apply IH.
    + rewrite (IH _ H2) by (simpl in *; lia). simpl.
      rewrite getpixel_rectangle, (in_span_false x) by (simpl in Hpx; lia).
      rewrite andb_false_r. apply fmap_keep.
Qed.


(** X2.  In the finished image every column from an entry's cursor up to,
    but not including, the cursor plus the entry's width shows the
    entry's colour on every row: a later block only paints over the one
    column at which it starts. *)
Theorem drawn_block_visible
    (total : Q) (l1 l2 : list data) (e : data) (x w x_end : Z) (im1 im_end : raster) :
  for_each (draw_block getink total) l1
           (0, new_image (Z.to_nat width) (Z.to_nat height)) = Ok (x, im1) ->
  block_width total e = Ok w -> 0 < w ->
  draw_blocks getink total (l1 ++ e :: l2) = Ok (x_end, im_end) ->
  exists ink,
    resolve_color getink e = Ok ink /\
    forall px py : nat,
      x <= Z.of_nat px < x + w -> Z.of_nat px < width -> Z.of_nat py < height ->
      getpixel im_end px py = Some ink.
Proof.
  intros H1 Hw Hpos Hall. unfold draw_blocks in Hall.
  rewrite for_each_app, H1 in Hall. simpl in Hall.
  apply bind_Ok_inv in Hall as ([x2 im2] & He & H2).
  destruct (drawn_block_pixels getink total x x2 im1 im2 e w Hw Hpos He) as (ink & Hink & Hpix).
  apply draw_block_Ok_inv in He as (w' & Hw' & Hcase).
  assert (w' = w) as -> by congruence.
  destruct Hcase as [(? & _)|(_ & -> & _)]; [lia|].
  exists ink. split; [done|]. intros px py Hpx Hx Hy.
  pose proof (for_each_left_untouched total l2 _ _ px py H2) as Hleft.
  simpl in Hleft. rewrite Hleft by lia.
  rewrite Hpix.
  assert (Hs : canvas_shape (Z.to_nat width) (Z.to_nat height) im1).
  { apply (for_each_shape _ _ total l1 _ _ H1), new_image_shape. }
  destruct (canvas_shape_pixel _ _ im1 px py Hs) as [p Hp]; [lia | lia |].
  rewrite Hp. simpl.
  assert (Hcur : 0 <= x) by (apply for_each_cursor_le in H1; simpl in H1; lia).
  rewrite (proj2 (in_span_spec 0 height py)) by (unfold height in *; lia).
  rewrite (proj2 (in_span_spec x (x + w) px)) by lia. done.
Qed.


End ImageFacts.

(** ** What the renderer raises, and when *)








Section RaiseFacts.

Variable getink : list data -> result rgb.


(** The loop body written with [block_width] and [resolve_color]. *)
Lemma draw_block_alt (total : Q) (x : Z) (im : raster) (e : data) :
  draw_block getink total (x, im) e =
  w ← block_width total e;
  if w <=? 0 then Ok (x, im)
  else ink ← resolve_color getink e;
       Ok (x + w, rectangle x 0 (x + w) height ink im).
Proof.
  unfold draw_block, resolve_color.
  destruct (block_width total e) as [w|]; simpl; [|done].
  destruct (w <=? 0); [done|].
  destruct (getitem e "color") as [c|]; simpl; [|done].
  by destruct (tuple c).
Qed.






(** Two lists render alike when their entries have, one by one, the same
    widths and the same colours. *)
Lemma for_each_draw_ext (t t' : Q) (l l' : list data) (st : Z * raster) :
  Forall2 (fun e e' => block_width t e = block_width t' e' /\
                       resolve_color getink e = resolve_color getink e') l l' ->
  for_each (draw_block getink t) l st = for_each (draw_block getink t') l' st.
Proof.
  intros H. revert st. induction H as [|e e' l l' [Hw Hc] _ IH]; intros st; [done|].
  cbn [for_each]. destruct st as [cx im]. rewrite !draw_block_alt, Hw, Hc.
  match goal with |- ?m ≫= _ = _ => destruct m as [st1|] end; simpl; [apply IH | done].
Qed.

Lemma sum_weights_ext (l l' : list data) (acc : Q) :
  Forall2 (fun e e' => weight_of e = weight_of e') l l' ->
  for_each (fun acc color_info => w ← weight_of color_info; Ok (acc + w)%Q) l acc =
  for_each (fun acc color_info => w ← weight_of color_info; Ok (acc + w)%Q) l' acc.
Proof.
  intros H. revert acc. induction H as [|e e' l l' Hw _ IH]; intros acc; [done|].
  cbn [for_each]. rewrite Hw.
  match goal with |- ?m ≫= _ = _ => destruct m as [acc1|] end; simpl; [apply IH | done].
Qed.

End RaiseFacts.

(** ** What the renderer does not depend on *)

Lemma Forall2_map_r_same {A} (R : A -> A -> Prop) (f : A -> A) (l : list A) :
  (forall a, R a (f a)) -> Forall2 R l (map f l).
Proof. intros H. induction l; simpl; by constructor. Qed.

Section IndependenceFacts.

Variables CONF_COLOR_RGB CONF_COLOR_TYPE : string.
Variable getink : list data -> result rgb.
Variable png_encode : raster -> list byte.

Lemma getitem_stamp_data (e : data) (k : string) :
  CONF_COLOR_TYPE <> k ->
  getitem (stamp_data CONF_COLOR_RGB CONF_COLOR_TYPE e) k = getitem e k.
Proof.
  intros Hk. destruct e as [a|xs|items]; [done|done|]. simpl.
  by rewrite dict_get_set_ne.
Qed.

Lemma render_stamp_data (l : list data) :
  CONF_COLOR_TYPE <> "weight"%string -> CONF_COLOR_TYPE <> "color"%string ->
  render getink (map (stamp_data CONF_COLOR_RGB CONF_COLOR_TYPE) l) = render getink l.
Proof.
  intros Hw Hc.
  assert (Hwe : forall e, weight_of e = weight_of (stamp_data CONF_COLOR_RGB CONF_COLOR_TYPE e)).
  { intros e. unfold weight_of. by rewrite getitem_stamp_data. }
  assert (Hce : forall e, resolve_color getink e =
                          resolve_color getink (stamp_data CONF_COLOR_RGB CONF_COLOR_TYPE e)).
  { intros e. unfold resolve_color. by rewrite getitem_stamp_data. }
  unfold render, total_weight, sum_weights, draw_blocks.
  rewrite <- (sum_weights_ext l _ 0%Q) by (apply Forall2_map_r_same; exact Hwe).
  destruct (for_each _ l 0%Q) as [s|]; simpl; [|done].
  match goal with
  | |- context [draw_block getink ?T] =>
      rewrite <- (for_each_draw_ext getink T T l
                    (map (stamp_data CONF_COLOR_RGB CONF_COLOR_TYPE) l)); [done|]
  end.
  apply Forall2_map_r_same. intros e. split; [|apply Hce].
  unfold block_width. by rewrite <- Hwe.
Qed.

(** X6.  The type tag that normalisation adds makes no difference to the
    renderer: tagged entries give the same outcome, image included, as
    the entries without the tag, as long as the tag's key is neither
    ["weight"] nor ["color"]. *)
Theorem render_ignores_type_tag (l : list data) (now : time) (self : AnimatedScenesImage) :
  CONF_COLOR_TYPE <> "weight"%string -> CONF_COLOR_TYPE <> "color"%string ->
  create_color_block_image getink png_encode
    (map (stamp_data CONF_COLOR_RGB CONF_COLOR_TYPE) l) now self =
  create_color_block_image getink png_encode l now self.
Proof.
  intros Hw Hc. unfold create_color_block_image.
  by rewrite (render_stamp_data l Hw Hc).
Qed.



End IndependenceFacts.

(** ** Fuel for reading the store *)

Lemma load_mono (h : heap) :
  forall n n' v t, (n <= n')%nat -> load n h v = Some t -> load n' h v = Some t.
Proof.
  induction n as [|n IH]; intros n' v t Hn Hl; destruct v as [a|l]; try done.
  - by rewrite load_atom in *.
  - by rewrite load_atom in *.
  - destruct n' as [|n']; [lia|].
    simpl in Hl. destruct (h !! l) as [[items|elems]|] eqn:E; [| |done].
    + apply fmap_Some in Hl as (ditems & Hd & ->).
      rewrite (load_ref_dict n' h l items E). apply fmap_Some. exists ditems. split; [|done].
      apply mapM_items. apply mapM_items in Hd.
      eapply Forall2_impl; [exact Hd|]. intros kv dkv [? ?]. split; [done|].
      apply (IH n'); [lia | done].
    + apply fmap_Some in Hl as (ts & Hts & ->).
      rewrite (load_ref_list n' h l elems E). apply fmap_Some. exists ts. split; [|done].
      apply mapM_Some. apply mapM_Some in Hts.
      eapply Forall2_impl; [exact Hts|]. intros x t'. apply (IH n'). lia.
Qed.

Lemma load_det (h : heap) (n n' : nat) (v : pyval) (t t' : data) :
  load n h v = Some t -> load n' h v = Some t' -> t = t'.
Proof.
  intros H H'.
  apply (load_mono h n (n `max` n')) in H; [|lia].
  apply (load_mono h n' (n `max` n')) in H'; [|lia]. congruence.
Qed.

Lemma foldr_max_le (f : data -> nat) (xs : list data) (x : data) :
  x ∈ xs -> (f x <= foldr Nat.max O (map f xs))%nat.
Proof.
  induction 1 as [x xs|x y xs _ IH]; simpl; lia.
Qed.

Lemma foldr_max_attained {A} (f : A -> nat) (xs : list A) (d : nat) :
  foldr Nat.max O (map f xs) = S d -> exists x, x ∈ xs /\ f x = S d.
Proof.
  induction xs as [|x xs IH]; simpl; [done|]. intros H.
  destruct (decide (f x = S d)) as [Hx|Hx].
  - exists x. split; [by apply elem_of_cons; left | done].
  - destruct IH as (y & Hy & Hfy); [lia|]. exists y. split; [by apply elem_of_cons; right | done].
Qed.

(** Fuel equal to the depth of the tree is enough to read it. *)
Lemma load_depth (h : heap) :
  forall n v t, load n h v = Some t -> load (depth t) h v = Some t.
Proof.
  induction n as [|n IH]; intros v t Hl; destruct v as [a|l]; try done.
  - rewrite load_atom in *. by simplify_eq.
  - rewrite load_atom in *. by simplify_eq.
  - simpl in Hl. destruct (h !! l) as [[items|elems]|] eqn:E; [| |done].
    + apply fmap_Some in Hl as (ditems & Hd & ->). cbn [depth].
      rewrite (load_ref_dict _ h l items E). apply fmap_Some. exists ditems. split; [|done].
      apply mapM_items. apply mapM_items in Hd.
      assert (Hle : Forall (fun dkv => (depth (snd dkv) <=
                 foldr Nat.max O (map (fun kv => depth (snd kv)) ditems))%nat) ditems).
      { apply Forall_forall. intros dkv Hin.
        clear -Hin. induction Hin as [x xs|x y xs _ IH]; simpl; lia. }
      revert Hle. generalize (foldr Nat.max O (map (fun kv => depth (snd kv)) ditems)).
      intros m Hle. clear E. induction Hd as [|kv dkv items ditems [Hk Hv] _ IHd]; [constructor|].
      apply Forall_cons in Hle as [Hle1 Hle]. constructor; [|by apply IHd].
      split; [done|]. apply (load_mono h (depth (snd dkv))); [done|]. by apply IH.
    + apply fmap_Some in Hl as (ts & Hts & ->). cbn [depth].
      rewrite (load_ref_list _ h l elems E). apply fmap_Some. exists ts. split; [|done].
      apply mapM_Some. apply mapM_Some in Hts.
      assert (Hle : Forall (fun t => (depth t <= foldr Nat.max O (map depth ts))%nat) ts).
      { apply Forall_forall. intros t Hin. by apply foldr_max_le. }
      revert Hle. generalize (foldr Nat.max O (map depth ts)).
      intros m Hle. clear E. induction Hts as [|x t elems ts Hx _ IHt]; [constructor|].
      apply Forall_cons in Hle as [Hle1 Hle]. constructor; [|by apply IHt].
      apply (load_mono h (depth t)); [done|]. by apply IH.
Qed.

(** A tree of depth [S d] is read from an object, and when [d] is positive
    one of its slots refers to an object that reads as a tree of depth
    [d]. *)
Lemma load_child (h : heap) (n : nat) (v : pyval) (t : data) (d : nat) :
  load n h v = Some t -> depth t = S (S d) ->
  exists (l' : nat) (n' : nat) (t' : data),
    load n' h (VRef l') = Some t' /\ depth t' = S d.
Proof.
  intros Hl Hd. destruct n as [|n]; destruct v as [a|l]; try done;
    try (rewrite load_atom in Hl; by simplify_eq).
  simpl in Hl. destruct (h !! l) as [[items|elems]|] eqn:E; [| |done].
  - apply fmap_Some in Hl as (ditems & Hdi & ->). cbn [depth] in Hd.
    injection Hd as Hd. apply foldr_max_attained in Hd as (dkv & Hin & Hdep).
    apply mapM_items in Hdi.
    apply list_elem_of_lookup in Hin as (i & Hi).
    destruct (Forall2_lookup_r _ _ _ _ _ Hdi Hi) as (kv & _ & _ & Hkv).
    destruct (snd kv) as [a|l'] eqn:Ekv.
    { rewrite load_atom in Hkv. injection Hkv as Hkv. by rewrite <- Hkv in Hdep. }
    by exists l', n, (snd dkv).
  - apply fmap_Some in Hl as (ts & Hts & ->). cbn [depth] in Hd.
    injection Hd as Hd. apply foldr_max_attained in Hd as (t' & Hin & Hdep).
    apply mapM_Some in Hts.
    apply list_elem_of_lookup in Hin as (i & Hi).
    destruct (Forall2_lookup_r _ _ _ _ _ Hts Hi) as (x & _ & Hx).
    destruct x as [a|l'].
    { rewrite load_atom in Hx. simplify_eq. }
    by exists l', n, t'.
Qed.

(** Objects that read as trees of depths 1, 2, ..., [d]. *)
Lemma load_chain (h : heap) :
  forall d l n t,
    load n h (VRef l) = Some t -> depth t = S d ->
    exists ls : list nat,
      length ls = S d /\
      forall (i : nat) (l' : nat), ls !! i = Some l' ->
        exists n' t', load n' h (VRef l') = Some t' /\ depth t' = S i.
Proof.
  induction d as [|d IH]; intros l n t Hl Hd.
  - exists [l]. split; [done|]. intros i l' Hi.
    destruct i; simpl in Hi; [|done]. simplify_eq. by exists n, t.
  - destruct (load_child h n (VRef l) t d Hl Hd) as (l1 & n1 & t1 & Hl1 & Hd1).
    destruct (IH l1 n1 t1 Hl1 Hd1) as (ls & Hlen & Hls).
    exists (ls ++ [l]). split; [rewrite length_app; simpl; lia|].
    intros i l' Hi. destruct (decide (i < length ls)%nat) as [Hlt|Hge].
    + rewrite lookup_app_l in Hi by done. by apply Hls.
    + assert (i = length ls) as ->.
      { apply lookup_lt_Some in Hi. rewrite length_app in Hi. simpl in Hi. lia. }
      rewrite list_lookup_middle in Hi by done. simplify_eq.
      exists n, t. by rewrite Hlen.
Qed.

(** A tree that can be read nests no deeper than there are objects. *)
Lemma load_depth_bound (h : heap) (n : nat) (v : pyval) (t : data) :
  load n h v = Some t -> (depth t <= length h)%nat.
Proof.
  intros Hl. destruct (depth t) as [|d] eqn:Hd; [lia|].
  destruct v as [a|l]; [rewrite load_atom in Hl; by simplify_eq|].
  destruct (load_chain h d l n t Hl Hd) as (ls & Hlen & Hls).
  rewrite <- Hlen.
  assert (Hnd : NoDup ls).
  { apply NoDup_alt. intros i j l' Hi Hj.
    destruct (Hls i l' Hi) as (n1 & t1 & H1 & Hd1).
    destruct (Hls j l' Hj) as (n2 & t2 & H2 & Hd2).
    assert (t1 = t2) by by eapply load_det. subst. lia. }
  assert (Hsub : ls ⊆ seq 0 (length h)).
  { intros l' Hin. apply list_elem_of_lookup in Hin as (i & Hi).
    destruct (Hls i l' Hi) as (n1 & t1 & H1 & _).
    apply elem_of_seq. split; [lia|]. simpl.
    destruct n1 as [|n1]; [done|]. simpl in H1.
    destruct (h !! l') eqn:E; [|done]. by eapply lookup_lt_Some. }
  pose proof (NoDup_submseteq _ _ Hnd (fun x Hx => Hsub x Hx)) as Hms.
  apply submseteq_length in Hms. by rewrite length_seq in Hms.
Qed.

(** What is read with some fuel is read with as much fuel as there are
    objects. *)
Lemma load_enough (h : heap) (n : nat) (v : pyval) (t : data) :
  load n h v = Some t -> load (length h) h v = Some t.
Proof.
  intros Hl. apply (load_mono h (depth t)); [by eapply load_depth_bound|].
  by eapply load_depth.
Qed.

(** ** Normalisation: when it completes and what it raises *)

Lemma closed_insert (h : heap) (l : nat) (o : pyobj) :
  closed h -> (forall r : nat, VRef r ∈ values_of o -> (r < length h)%nat) ->
  closed (<[l := o]> h).
Proof.
  intros Hc Ho l' o' r Hl Hr. rewrite length_insert.
  destruct (decide (l = l')) as [->|Hne].
  - rewrite list_lookup_insert_eq in Hl by (apply lookup_lt_Some in Hl; by rewrite length_insert in Hl).
    simplify_eq. by apply Ho.
  - rewrite list_lookup_insert_ne in Hl by done. by eapply Hc.
Qed.

Section BuildFacts.

Variables CONF_COLOR_RGB CONF_COLOR_RGB_DICT CONF_COLOR_TYPE CONF_COLORS : string.

Abbreviation build := (_async_build_colors_from_rgb_dict
  CONF_COLOR_RGB CONF_COLOR_RGB_DICT CONF_COLOR_TYPE CONF_COLORS).
Abbreviation tag_color := (tag_color CONF_COLOR_RGB CONF_COLOR_TYPE).
Abbreviation stamp_obj := (stamp_obj CONF_COLOR_RGB CONF_COLOR_TYPE).
Abbreviation raw_mapping := (raw_mapping CONF_COLOR_RGB_DICT).

Lemma tag_loop_Raise_kind (vs : list pyval) :
  forall h e h', for_each_M tag_color vs h = Some (Raise e, h') -> e = AttributeError.
Proof.
  induction vs as [|v vs IH]; intros h e h' H; simpl in H; [done|].
  unfold bindM in H. destruct (tag_color v h) as [[[[]|e1] h1]|] eqn:E1; [by eapply IH| |done].
  simplify_eq. unfold tag_color, dict_update, bindM, dict_of in E1.
  destruct v as [a|l]; [by simplify_eq|].
  destruct (h !! l) as [[d|elems]|]; by simplify_eq.
Qed.

Lemma tag_loop_Ok_inv (vs : list pyval) :
  forall h h',
    for_each_M tag_color vs h = Some (Ok tt, h') ->
    Forall (fun v => exists (l : nat) d, v = VRef l /\ h !! l = Some (ODict d)) vs.
Proof.
  induction vs as [|v vs IH]; intros h h' H; simpl in H; [constructor|].
  unfold bindM in H. destruct (tag_color v h) as [[[[]|e1] h1]|] eqn:E1; [|done|done].
  apply tag_color_run in E1 as [(e & ? & _)|(y & d & _ & -> & Hy & ->)]; [done|].
  constructor; [by exists y, d|].
  apply IH in H. eapply Forall_impl; [exact H|]. intros v (l & d' & -> & Hl).
  destruct (decide (l = y)) as [->|Hne]; [by exists y, d|].
  rewrite list_lookup_insert_ne in Hl by done. by exists l, d'.
Qed.

Lemma build_Raise_kind (self : AnimatedScenesImage) (h : heap)
    (cfg : list (string * pyval)) (e : exn) (h' : heap) :
  h !! _config self = Some (ODict cfg) ->
  build self h = Some (Raise e, h') -> e = AttributeError.
Proof.
  intros Hc. rewrite (build_unfold CONF_COLOR_RGB CONF_COLOR_RGB_DICT CONF_COLOR_TYPE
                        CONF_COLORS self h cfg Hc).
  destruct (deepcopy _ _ _) as [[copied [m h2]]|]; [|done].
  destruct (dict_of copied h2) as [[[[y items]|e1] h2']|] eqn:Ed; [| |done].
  - destruct (for_each_M _ _ _) as [[[[]|e1] h4]|] eqn:Et; [| |done].
    + unfold dict_update, bindM, dict_of.
      destruct (h4 !! _config self) as [[d|elems]|]; by intros [= <- <-].
    + intros [= <- <-]. by eapply tag_loop_Raise_kind.
  - intros [= <- <-]. unfold dict_of in Ed. destruct copied as [a|l]; [by simplify_eq|].
    destruct (h2 !! l) as [[d|elems]|]; by simplify_eq.
Qed.

Lemma copied_store_closed (h1 : heap) (m : gmap nat nat) (h2 : heap) :
  closed h1 -> copy_post h1 ∅ h1 m h2 -> closed h2.
Proof.
  intros Hcl Hp l o r Ho Hr.
  pose proof (cp_len _ _ _ _ _ Hp) as Hlen.
  destruct (decide (l < length h1)%nat) as [Hlt|Hge].
  - rewrite (cp_frame _ _ _ _ _ Hp) in Ho by done.
    pose proof (Hcl l o r Ho Hr). lia.
  - destruct (cp_fresh _ _ _ _ _ Hp l) as (l0 & Hl0 & _).
    { apply lookup_lt_Some in Ho. lia. }
    destruct (cp_new _ _ _ _ _ Hp l0 l Hl0 (lookup_empty l0)) as (_ & o0 & _ & Ho' & Hrefs).
    rewrite Ho in Ho'. simplify_eq. rewrite values_of_rename_obj in Hr.
    by apply (renamed_refs_fresh h1 m h2 _ r Hp Hrefs) in Hr as [_ ?].
Qed.

Lemma tag_loop_closed (vs : list pyval) (h : heap) (r : result unit) (h' : heap) :
  closed h -> for_each_M tag_color vs h = Some (r, h') -> closed h'.
Proof.
  intros Hcl H. destruct (tag_loop_frame CONF_COLOR_RGB CONF_COLOR_TYPE vs _ _ _ H) as [Hlen Hfr].
  intros l o x Ho Hx. rewrite Hlen. destruct (Hfr l) as [Hs|[_ Hs]]; rewrite Hs in Ho.
  - by eapply Hcl.
  - destruct (h !! l) as [o0|] eqn:E; [|done]. simpl in Ho. simplify_eq.
    apply stamp_obj_refs in Hx. by eapply Hcl.
Qed.

(** X8.  On a store without dangling references the function leaves the
    store without dangling references, whether it completes or raises. *)
Theorem build_keeps_closed (self : AnimatedScenesImage) (h : heap)
    (cfg : list (string * pyval)) (r : result unit) (h' : heap) :
  closed h -> h !! _config self = Some (ODict cfg) ->
  build self h = Some (r, h') -> closed h'.
Proof.
  intros Hcl Hc Hrun.
  assert (Hlt : (_config self < length h)%nat) by by eapply lookup_lt_Some.
  destruct (build_outcome CONF_COLOR_RGB CONF_COLOR_RGB_DICT CONF_COLOR_TYPE CONF_COLORS
              self h cfg Hcl Hc) as (m & h2 & Hp & Hcase).
  assert (Hcl1 : closed (h ++ [ODict []])).
  { apply closed_snoc; [done|]. intros x Hx. by apply elem_of_nil in Hx. }
  pose proof (copied_store_closed _ m h2 Hcl1 Hp) as Hcl2.
  pose proof (cp_len _ _ _ _ _ Hp) as Hlen2. rewrite length_app in Hlen2. simpl in Hlen2.
  destruct Hcase as [((e & Hrun') & _)|(l0 & items0 & y & r' & h4 & _ & _ & _ & _ & Hrefs & Etag & Hrun')].
  { rewrite Hrun' in Hrun. by simplify_eq. }
  set (vals := map (rename_val m) (map snd items0)) in *.
  assert (Hcl3 : closed (h2 ++ [OList vals])).
  { apply closed_snoc; [done|]. intros x Hx. simpl in Hx.
    pose proof (renamed_refs_fresh _ m h2 _ x Hp Hrefs Hx). lia. }
  pose proof (tag_loop_closed vals _ _ _ Hcl3 Etag) as Hcl4.
  destruct (tag_loop_frame CONF_COLOR_RGB CONF_COLOR_TYPE vals _ _ _ Etag) as [Hlen4 _].
  rewrite length_app in Hlen4. simpl in Hlen4.
  rewrite Hrun' in Hrun. destruct r' as [[]|e]; simplify_eq; [|done].
  apply closed_insert; [done|]. intros x Hx. simpl in Hx.
  apply dict_set_values in Hx as [Hx|Hx]; [simplify_eq; lia|].
  pose proof (Hcl _ _ x Hc Hx). lia.
Qed.

(** The mapping and its entries, seen in the store the copy starts from. *)
Lemma mapping_ok_raw (h : heap) (c : nat) (cfg : list (string * pyval)) :
  closed h -> h !! c = Some (ODict cfg) -> mapping_ok CONF_COLOR_RGB_DICT h cfg ->
  exists (l : nat) items0,
    raw_mapping h cfg = VRef l /\ (h ++ [ODict []]) !! l = Some (ODict items0) /\
    Forall (fun kv => exists (e : nat) d,
                        snd kv = VRef e /\ (h ++ [ODict []]) !! e = Some (ODict d)) items0.
Proof.
  intros Hcl Hc Hok. unfold raw_mapping.
  destruct (dict_get CONF_COLOR_RGB_DICT cfg) as [v|] eqn:E.
  - destruct (Hok v E) as (mp & items0 & -> & Hmp & Hitems).
    exists mp, items0. split; [done|]. split; [by apply lookup_app_l_Some|].
    eapply Forall_impl; [exact Hitems|]. intros kv (e & d & ? & ?).
    exists e, d. split; [done|]. by apply lookup_app_l_Some.
  - exists (length h), []. split; [done|]. split; [by apply list_lookup_middle | constructor].
Qed.

(** X9.  The function completes exactly when the stored mapping, if there
    is one, is a dict whose values are all dicts.  (Without a mapping it
    completes with an empty list.) *)
Theorem build_ok_iff (self : AnimatedScenesImage) (h : heap) (cfg : list (string * pyval)) :
  closed h -> h !! _config self = Some (ODict cfg) ->
  (exists h', build self h = Some (Ok tt, h')) <-> mapping_ok CONF_COLOR_RGB_DICT h cfg.
Proof.
  intros Hcl Hc.
  destruct (build_outcome CONF_COLOR_RGB CONF_COLOR_RGB_DICT CONF_COLOR_TYPE CONF_COLORS
              self h cfg Hcl Hc) as (m & h2 & Hp & Hcase).
  pose proof (cp_len _ _ _ _ _ Hp) as Hlen2. rewrite length_app in Hlen2. simpl in Hlen2.
  split.
  - intros (h' & Hrun) v Hget.
    destruct Hcase as [((e & Hrun') & _)|(l & items0 & y & r & h4 & Hraw & Hl1 & Hy & Hy2 & Hrefs & Etag & Hrun')].
    { rewrite Hrun' in Hrun. done. }
    rewrite Hrun' in Hrun. destruct r as [[]|e]; [|done].
    unfold raw_mapping in Hraw. rewrite Hget in Hraw. subst v.
    assert (Hll : (l < length h)%nat).
    { apply dict_get_Some_values in Hget. by eapply Hcl. }
    rewrite lookup_app_l in Hl1 by done.
    exists l, items0. split; [done|]. split; [done|].
    apply tag_loop_Ok_inv in Etag. apply Forall_forall. intros kv Hin.
    assert (Hkv : snd kv ∈ map snd items0).
    { apply list_elem_of_In, in_map. by apply list_elem_of_In. }
    rewrite Forall_forall in Etag.
    destruct (Etag (rename_val m (snd kv))) as (e' & d' & He' & Hd').
    { apply list_elem_of_In, in_map. by apply list_elem_of_In. }
    destruct (snd kv) as [a|e] eqn:Ekv; [done|].
    destruct (Hrefs e Hkv) as [e2 He2]. simpl in He'. rewrite He2 in He'. simplify_eq.
    destruct (cp_new _ _ _ _ _ Hp e e' He2 (lookup_empty e)) as (_ & o & Ho & Ho2 & _).
    assert (Hlt' : (e' < length h2)%nat) by by eapply lookup_lt_Some.
    rewrite lookup_app_l in Hd' by done. rewrite Ho2 in Hd'.
    assert (Hel : (e < length h)%nat) by by eapply Hcl.
    rewrite lookup_app_l in Ho by done.
    destruct o as [d|elems]; [by exists e, d|].
    unfold rename_obj in Hd'. simpl in Hd'. done.
  - intros Hok.
    destruct (mapping_ok_raw h _ cfg Hcl Hc Hok) as (l & items0 & Hraw & Hl1 & Hitems).
    destruct Hcase as [(_ & Hno)|(l' & items0' & y & r & h4 & Hraw' & Hl1' & Hy & Hy2 & Hrefs & Etag & Hrun')].
    { by destruct (Hno l items0 Hraw). }
    rewrite Hraw in Hraw'. injection Hraw' as <-. rewrite Hl1 in Hl1'. injection Hl1' as <-.
    destruct (tag_loop_dicts CONF_COLOR_RGB CONF_COLOR_TYPE
                (map (rename_val m) (map snd items0))
                (h2 ++ [OList (map (rename_val m) (map snd items0))]))
      as (h4' & Etag' & _).
    { apply Forall_forall. intros v Hv.
      apply list_elem_of_In, in_map_iff in Hv as (v0 & <- & Hv0).
      apply in_map_iff in Hv0 as (kv & <- & Hin). apply list_elem_of_In in Hin.
      rewrite Forall_forall in Hitems. destruct (Hitems kv Hin) as (e & d & Hkv & Hd).
      rewrite Hkv.
      destruct (Hrefs e) as [e' He'].
      { rewrite <- Hkv. apply list_elem_of_In, in_map. by apply list_elem_of_In. }
      simpl. rewrite He'.
      destruct (cp_new _ _ _ _ _ Hp e e' He' (lookup_empty e)) as (_ & o & Ho & Ho2 & _).
      rewrite Hd in Ho. simplify_eq. rewrite rename_obj_dict in Ho2.
      exists e'. eexists. split; [done|]. by apply lookup_app_l_Some. }
    rewrite Etag' in Etag. simplify_eq. by eexists.
Qed.

(** X10.  When the function raises, it raises [AttributeError] (a value
    that should be a dict is not), it has changed no object that existed
    before the call, and the configuration has no colour list written to
    it. *)
Theorem build_raise_leaves_store (self : AnimatedScenesImage) (h : heap)
    (cfg : list (string * pyval)) (e : exn) (h' : heap) :
  closed h -> h !! _config self = Some (ODict cfg) ->
  build self h = Some (Raise e, h') ->
  e = AttributeError /\
  forall l : nat, (l < length h)%nat -> h' !! l = h !! l.
Proof.
  intros Hcl Hc Hrun. split; [by eapply build_Raise_kind|].
  destruct (build_outcome CONF_COLOR_RGB CONF_COLOR_RGB_DICT CONF_COLOR_TYPE CONF_COLORS
              self h cfg Hcl Hc) as (m & h2 & Hp & Hcase).
  pose proof (cp_len _ _ _ _ _ Hp) as Hlen2. rewrite length_app in Hlen2. simpl in Hlen2.
  assert (Hold2 : forall l : nat, (l < length h)%nat -> h2 !! l = h !! l).
  { intros l Hl. rewrite (cp_frame _ _ _ _ _ Hp) by (rewrite length_app; simpl; lia).
    by rewrite lookup_app_l. }
  destruct Hcase as [((e' & Hrun') & _)|(l0 & items0 & y & r & h4 & _ & _ & _ & _ & Hrefs & Etag & Hrun')].
  { rewrite Hrun' in Hrun. by simplify_eq. }
  rewrite Hrun' in Hrun. destruct r as [[]|e1]; [done|]. simplify_eq.
  destruct (tag_loop_frame CONF_COLOR_RGB CONF_COLOR_TYPE _ _ _ _ Etag) as [_ Hfr].
  intros l Hl. destruct (Hfr l) as [Hs|[Hin _]].
  - rewrite Hs, lookup_app_l by lia. by apply Hold2.
  - pose proof (renamed_refs_fresh _ m h2 _ _ Hp Hrefs Hin) as Hr.
    rewrite length_app in Hr. simpl in Hr. lia.
Qed.

End BuildFacts.

(** ** Normalisation and rendering together *)

Lemma scene_colors_of_run (CONF_COLORS : string) (self : AnimatedScenesImage) (h : heap)
    (cfg : list (string * pyval)) (k : nat) (v : pyval) (d : data) :
  h !! _config self = Some (ODict cfg) ->
  match dict_get CONF_COLORS cfg with Some x => x | None => VRef (length h) end = v ->
  load k (h ++ [OList []]) v = Some d ->
  scene_colors_of CONF_COLORS self h =
    Some (match tuple d with Ok entries => Ok entries | Raise e => Raise e end,
          h ++ [OList []]).
Proof.
  intros Hc Hv Hl.
  assert (Hlt : (_config self < length h)%nat) by by eapply lookup_lt_Some.
  unfold scene_colors_of, bindM, new_object, dict_get_default, bindM, dict_of, retM.
  rewrite lookup_app_l by done. rewrite Hc, Hv.
  rewrite (load_enough _ _ _ _ Hl). by destruct (tuple d).
Qed.

Lemma scene_colors_of_store (CONF_COLORS : string) (self : AnimatedScenesImage) (h : heap)
    (r : result (list data)) (h' : heap) :
  scene_colors_of CONF_COLORS self h = Some (r, h') -> h' = h ++ [OList []].
Proof.
  unfold scene_colors_of, bindM, new_object, dict_get_default, bindM, dict_of, retM.
  destruct ((h ++ [OList []]) !! _config self) as [[d|elems]|]; [| |done].
  - destruct (load _ _ _) as [t|]; [|done]. destruct (tuple t); by intros [= <- <-].
  - by intros [= <- <-].
Qed.

Section NormalizeFacts.

Variables CONF_COLOR_RGB CONF_COLOR_RGB_DICT CONF_COLOR_TYPE CONF_COLORS
          CONF_COLOR_SELECTOR_MODE COLOR_SELECTOR_RGB_UI : string.
Variable getink : list data -> result rgb.
Variable png_encode : raster -> list byte.

Abbreviation build := (_async_build_colors_from_rgb_dict
  CONF_COLOR_RGB CONF_COLOR_RGB_DICT CONF_COLOR_TYPE CONF_COLORS).
Abbreviation tag_color := (tag_color CONF_COLOR_RGB CONF_COLOR_TYPE).
Abbreviation stamp_obj := (stamp_obj CONF_COLOR_RGB CONF_COLOR_TYPE).
Abbreviation stamp_data := (stamp_data CONF_COLOR_RGB CONF_COLOR_TYPE).
Abbreviation normalize_ := (normalize CONF_COLOR_RGB CONF_COLOR_RGB_DICT CONF_COLOR_TYPE
  CONF_COLORS CONF_COLOR_SELECTOR_MODE COLOR_SELECTOR_RGB_UI).
Abbreviation added_to_hass := (async_added_to_hass CONF_COLOR_RGB CONF_COLOR_RGB_DICT
  CONF_COLOR_TYPE CONF_COLORS CONF_COLOR_SELECTOR_MODE COLOR_SELECTOR_RGB_UI
  getink png_encode).

(** [normalize] with the branch on the selector mode taken. *)
Lemma normalize_rgb_ui (self : AnimatedScenesImage) (h : heap) (cfg : list (string * pyval)) :
  h !! _config self = Some (ODict cfg) ->
  dict_get CONF_COLOR_SELECTOR_MODE cfg = Some (VAtom (AStr COLOR_SELECTOR_RGB_UI)) ->
  normalize_ self h = (build self;; scene_colors_of CONF_COLORS self) h.
Proof.
  intros Hc Hm. unfold normalize. unfold bindM at 1. unfold dict_get_default at 1.
  unfold bindM at 1. unfold dict_of at 1. rewrite Hc. unfold retM at 1.
  rewrite Hm. by rewrite String.eqb_refl.
Qed.

Lemma normalize_other_mode (self : AnimatedScenesImage) (h : heap)
    (cfg : list (string * pyval)) :
  h !! _config self = Some (ODict cfg) ->
  dict_get CONF_COLOR_SELECTOR_MODE cfg <> Some (VAtom (AStr COLOR_SELECTOR_RGB_UI)) ->
  normalize_ self h = scene_colors_of CONF_COLORS self h.
Proof.
  intros Hc Hm. unfold normalize. unfold bindM at 1. unfold dict_get_default at 1.
  unfold bindM at 1. unfold dict_of at 1. rewrite Hc. unfold retM at 1.
  destruct (dict_get CONF_COLOR_SELECTOR_MODE cfg) as [[[| | | |s]|l]|] eqn:E;
    try done.
  destruct (String.eqb s COLOR_SELECTOR_RGB_UI) eqn:Es; [|done].
  apply String.eqb_eq in Es. by subst s.
Qed.

Lemma normalize_cases (self : AnimatedScenesImage) (h : heap) (cfg : list (string * pyval)) :
  h !! _config self = Some (ODict cfg) ->
  normalize_ self h = (build self;; scene_colors_of CONF_COLORS self) h \/
  normalize_ self h = scene_colors_of CONF_COLORS self h.
Proof.
  intros Hc. remember (normalize_ self h) as run eqn:E.
  unfold normalize in E. unfold bindM at 1 in E. unfold dict_get_default at 1 in E.
  unfold bindM at 1 in E. unfold dict_of at 1 in E. rewrite Hc in E. unfold retM at 1 in E.
  destruct (dict_get CONF_COLOR_SELECTOR_MODE cfg) as [[[| | | |s]|l]|];
    try (by right).
  destruct (String.eqb s COLOR_SELECTOR_RGB_UI); [by left|by right].
Qed.

(** What a run of the builder leaves of the store it started from. *)
Lemma build_frame (self : AnimatedScenesImage) (h : heap) (cfg : list (string * pyval))
    (r : result unit) (h' : heap) :
  closed h -> h !! _config self = Some (ODict cfg) ->
  build self h = Some (r, h') ->
  (length h <= length h')%nat /\
  (forall l : nat, (l < length h)%nat -> l <> _config self -> h' !! l = h !! l) /\
  exists cfg', h' !! _config self = Some (ODict cfg').
Proof.
  intros Hcl Hc Hrun.
  assert (Hlt : (_config self < length h)%nat) by by eapply lookup_lt_Some.
  destruct (build_outcome CONF_COLOR_RGB CONF_COLOR_RGB_DICT CONF_COLOR_TYPE CONF_COLORS
              self h cfg Hcl Hc) as (m & h2 & Hp & Hcase).
  pose proof (cp_len _ _ _ _ _ Hp) as Hlen2. rewrite length_app in Hlen2. simpl in Hlen2.
  assert (Hold2 : forall l : nat, (l < length h)%nat -> h2 !! l = h !! l).
  { intros l Hl. rewrite (cp_frame _ _ _ _ _ Hp) by (rewrite length_app; simpl; lia).
    by rewrite lookup_app_l. }
  destruct Hcase as [((e & Hrun') & _)|(l0 & items0 & y & r' & h4 & _ & _ & _ & _ & Hrefs & Etag & Hrun')].
  { rewrite Hrun' in Hrun. simplify_eq. split; [lia|]. split; [by intros l Hl _; apply Hold2|].
    exists cfg. by rewrite Hold2. }
  destruct (tag_loop_frame CONF_COLOR_RGB CONF_COLOR_TYPE _ _ _ _ Etag) as [Hlen4 Hfr].
  rewrite length_app in Hlen4. simpl in Hlen4.
  assert (Hold4 : forall l : nat, (l < length h)%nat -> h4 !! l = h !! l).
  { intros l Hl. destruct (Hfr l) as [Hs|[Hin _]].
    - rewrite Hs, lookup_app_l by lia. by apply Hold2.
    - pose proof (renamed_refs_fresh _ m h2 _ _ Hp Hrefs Hin) as Hr.
      rewrite length_app in Hr. simpl in Hr. lia. }
  rewrite Hrun' in Hrun. destruct r' as [[]|e]; simplify_eq.
  - rewrite length_insert. split; [lia|]. split.
    + intros l Hl Hne. rewrite list_lookup_insert_ne by done. by apply Hold4.
    + eexists. apply list_lookup_insert_eq. lia.
  - split; [lia|]. split; [by intros l Hl _; apply Hold4|].
    exists cfg. by rewrite Hold4.
Qed.

Lemma normalize_frame (self : AnimatedScenesImage) (h : heap) (cfg : list (string * pyval))
    (r : result (list data)) (h' : heap) :
  closed h -> h !! _config self = Some (ODict cfg) ->
  normalize_ self h = Some (r, h') ->
  forall l : nat, (l < length h)%nat -> l <> _config self -> h' !! l = h !! l.
Proof.
  intros Hcl Hc Hrun l Hl Hne.
  destruct (normalize_cases self h cfg Hc) as [E|E]; rewrite E in Hrun.
  - unfold bindM in Hrun.
    destruct (build self h) as [[[[]|e] h1]|] eqn:Eb; [| |done].
    + destruct (build_frame self h cfg _ _ Hcl Hc Eb) as (Hlen & Hfr & _).
      apply scene_colors_of_store in Hrun as ->.
      rewrite lookup_app_l by lia. by apply Hfr.
    + simplify_eq. by apply (build_frame self h cfg _ _ Hcl Hc Eb).
  - apply scene_colors_of_store in Hrun as ->. by apply lookup_app_l.
Qed.

Lemma build_mapping_reads
    (self : AnimatedScenesImage) (h : heap) (cfg : list (string * pyval))
    (mapping : nat) (n : nat) (ditems : list (string * data)) :
  closed h -> h !! _config self = Some (ODict cfg) ->
  dict_get CONF_COLOR_RGB_DICT cfg = Some (VRef mapping) ->
  load (S (S n)) h (VRef mapping) = Some (DDict ditems) ->
  Forall (fun kv => flat_entry (snd kv)) ditems ->
  exists h' (color_list : nat),
    build self h = Some (Ok tt, h') /\
    h' !! _config self = Some (ODict (dict_set CONF_COLORS (VRef color_list) cfg)) /\
    load (S (S n)) h' (VRef color_list) =
      Some (DList (map (fun kv => stamp_data (snd kv)) ditems)).
Proof.
  intros Hcl Hc Hget Hload Hflat.
  assert (Hlt : (_config self < length h)%nat) by by eapply lookup_lt_Some.
  apply load_dict_inv in Hload as (? & items0 & ? & [= <-] & [= <-] & Hm & Hitems).
  destruct (build_outcome CONF_COLOR_RGB CONF_COLOR_RGB_DICT CONF_COLOR_TYPE CONF_COLORS
              self h cfg Hcl Hc) as (m & h2 & Hp & Hcase).
  assert (Hraw : raw_mapping CONF_COLOR_RGB_DICT h cfg = VRef mapping)
    by (unfold raw_mapping; by rewrite Hget).
  set (h1 := h ++ [ODict []]) in *.
  assert (Hm1 : h1 !! mapping = Some (ODict items0)) by by apply lookup_app_l_Some.
  destruct Hcase as [(_ & Hno)|(l & items0' & y & r & h4 & Hl & Hl1 & Hy & Hy2 & Hrefs & Etag & Hrun)].
  { by destruct (Hno mapping items0 Hraw). }
  rewrite Hraw in Hl. injection Hl as <-. rewrite Hm1 in Hl1. injection Hl1 as <-.
  set (vals := map (rename_val m) (map snd items0)) in *.
  pose proof (cp_len _ _ _ _ _ Hp) as Hlen2.
  assert (Hlen1 : length h1 = S (length h)) by (subst h1; rewrite length_app; simpl; lia).
  assert (Hold2 : forall l : nat, (l < length h)%nat -> h2 !! l = h !! l).
  { intros l Hl. rewrite (cp_frame _ _ _ _ _ Hp) by lia. by apply lookup_app_l. }
  (* every value of the mapping is a dict that has been copied *)
  assert (Hent : Forall (fun kv =>
            forall fields, load (S n) h (snd kv) = Some (DDict fields) ->
              exists (e : nat) fitems (e' : nat),
                snd kv = VRef e /\ h !! e = Some (ODict fitems) /\
                Forall2 (items_load (load n h)) fitems fields /\
                m !! e = Some e' /\
                h2 !! e' = Some (rename_obj m (ODict fitems)) /\
                (forall r : nat, VRef r ∈ map snd fitems -> is_Some (m !! r)) /\
                VRef e' ∈ vals)
            items0).
  { apply Forall_forall. intros [k v] Hin fields Hv. cbn [fst snd] in *.
    apply load_dict_inv in Hv as (e & fitems & ? & -> & [= <-] & He & Hf).
    destruct (Hrefs e) as [e' He'].
    { apply list_elem_of_In, in_map_iff. exists (k, VRef e). split; [done|].
      by apply list_elem_of_In. }
    destruct (cp_new _ _ _ _ _ Hp e e' He' (lookup_empty e)) as (_ & o & Ho & He2 & Hr).
    assert (o = ODict fitems) as ->.
    { subst h1. rewrite (lookup_app_l_Some _ _ _ _ He) in Ho. by simplify_eq. }
    exists e, fitems, e'. repeat split; try done.
    apply list_elem_of_In, in_map_iff. exists (VRef e). simpl. rewrite He'.
    split; [done|]. apply in_map_iff. exists (k, VRef e). split; [done|].
    by apply list_elem_of_In. }
  (* the tagging loop completes *)
  destruct (tag_loop_dicts CONF_COLOR_RGB CONF_COLOR_TYPE vals (h2 ++ [OList vals]))
    as (h4' & Etag' & Hlen4 & Htag).
  { subst vals. rewrite map_map. apply Forall_map.
    apply (Forall2_left _ items0 ditems).
    eapply Forall2_combine; [|exact Hitems|exact Hent|exact Hflat].
    intros [k v] [k' d] [_ Hd] He (fields & Hf & _). cbn [fst snd] in *. subst d.
    destruct (He fields Hd) as (e & fitems & e' & -> & _ & _ & He' & He2 & _ & _).
    simpl. rewrite He'. exists e'. eexists. split; [done|].
    rewrite rename_obj_dict in He2. by apply lookup_app_l_Some. }
  rewrite Etag' in Etag. injection Etag as <- <-.
  rewrite length_app in Hlen4. simpl in Hlen4.
  eexists _, _. split; [exact Hrun|].
  set (h5 := <[_config self:=ODict (dict_set CONF_COLORS (VRef (length h2)) cfg)]> h4').
  split. { apply list_lookup_insert_eq. lia. }
  assert (Hvals_range : forall r : nat, VRef r ∈ vals -> (length h1 <= r < length h2)%nat).
  { intros r Hr. by eapply renamed_refs_fresh. }
  assert (H5 : forall l : nat, l <> _config self -> h5 !! l = h4' !! l).
  { intros l Hne. subst h5. by rewrite list_lookup_insert_ne. }
  assert (Hlist : h5 !! length h2 = Some (OList vals)).
  { rewrite H5 by lia. destruct (Htag (length h2)) as [_ Hout]. rewrite Hout.
    - by apply list_lookup_middle.
    - intros Hin. apply Hvals_range in Hin. lia. }
  assert (Hagree : forall (l : nat) elems,
             h2 !! l = Some (OList elems) -> h5 !! l = Some (OList elems)).
  { intros l elems Hl2.
    assert (Hne : l <> _config self).
    { intros ->. rewrite Hold2, Hc in Hl2 by done. done. }
    rewrite H5 by done.
    destruct (tag_loop_frame CONF_COLOR_RGB CONF_COLOR_TYPE vals _ _ _ Etag') as [_ Hfr].
    destruct (Hfr l) as [Hs|[_ Hs]]; rewrite Hs, (lookup_app_l_Some _ _ _ _ Hl2); done. }
  rewrite (load_ref_list (S n) h5 _ vals Hlist). apply fmap_Some.
  eexists. split; [|done]. apply mapM_Some.
  subst vals. rewrite map_map. apply Forall2_map_both.
  assert (Hent5 : Forall (fun kv =>
            forall fields, load (S n) h (snd kv) = Some (DDict fields) ->
              Forall (fun fd => dict_free (snd fd) = true) fields ->
              load (S n) h5 (rename_val m (snd kv)) = Some (stamp_data (DDict fields)))
            items0).
  { eapply Forall_impl; [exact Hent|]. intros [k v] He fields Hv Hfree. cbn [fst snd] in *.
    destruct (He fields Hv) as (e & fitems & e' & -> & Hhe & Hf & He' & He2 & Hr & Hin).
    unfold rename_val at 1. rewrite He'.
    assert (He5 : h5 !! e' = Some (stamp_obj (rename_obj m (ODict fitems)))).
    { rewrite H5 by (apply Hvals_range in Hin; lia).
      destruct (Htag e') as [Hs _]. rewrite (Hs Hin).
      by rewrite (lookup_app_l_Some _ _ _ _ He2). }
    rewrite rename_obj_dict in He5. simpl in He5.
    rewrite (load_ref_dict n h5 e' _ He5). apply fmap_Some.
    eexists. split; [|done]. apply mapM_items.
    apply items_load_dict_set; [|apply load_atom].
    apply (items_load_rename (load n h)); [|done|done].
    intros v t Hvin Hvt Hvfree.
    apply (load_dict_free_agree h2 h5 Hagree); [|done].
    rewrite (load_copy h1 m h2 Hp).
    - by apply load_app.
    - intros r ->. by apply Hr. }
  eapply Forall2_combine; [|exact Hitems|exact Hent5|exact Hflat].
  intros [k v] [k' d] [_ Hd] He (fields & Hf & Hfree). cbn [fst snd] in *. subst d.
  by apply He.
Qed.

(** X11.  In a selector mode other than the RGB one the stored colour
    list is rendered as it is: a colour mapping in the configuration is
    not looked at, and no object of the store is changed (the store only
    gains the unused default list). *)
Theorem stored_list_rendered_as_is
    (now : time) (self : AnimatedScenesImage) (h : heap) (cfg : list (string * pyval))
    (v : pyval) (k : nat) (entries : list data) :
  h !! _config self = Some (ODict cfg) ->
  dict_get CONF_COLOR_SELECTOR_MODE cfg <> Some (VAtom (AStr COLOR_SELECTOR_RGB_UI)) ->
  dict_get CONF_COLORS cfg = Some v ->
  load k h v = Some (DList entries) ->
  added_to_hass now self h =
    Some (create_color_block_image getink png_encode entries now self, h ++ [OList []]).
Proof.
  intros Hc Hm Hv Hl. unfold async_added_to_hass.
  rewrite (normalize_other_mode self h cfg Hc Hm).
  rewrite (scene_colors_of_run CONF_COLORS self h cfg k v (DList entries) Hc).
  - simpl. by destruct (create_color_block_image getink png_encode entries now self).
  - by rewrite Hv.
  - by apply load_app.
Qed.

(** X12.  In the RGB selector mode without a stored mapping, a colour
    list that the configuration holds is replaced by a new empty list:
    the image cached is the one of the empty list, whatever the list
    held.  No other object that existed is changed. *)
Theorem rgb_mode_without_mapping_drops_list
    (now : time) (self : AnimatedScenesImage) (h : heap) (cfg : list (string * pyval)) :
  closed h -> h !! _config self = Some (ODict cfg) ->
  dict_get CONF_COLOR_SELECTOR_MODE cfg = Some (VAtom (AStr COLOR_SELECTOR_RGB_UI)) ->
  dict_get CONF_COLOR_RGB_DICT cfg = None ->
  exists h' (color_list : nat),
    added_to_hass now self h =
      Some (create_color_block_image getink png_encode [] now self, h') /\
    h' !! _config self = Some (ODict (dict_set CONF_COLORS (VRef color_list) cfg)) /\
    h' !! color_list = Some (OList []) /\
    (length h <= color_list)%nat /\
    forall l : nat, (l < length h)%nat -> l <> _config self -> h' !! l = h !! l.
Proof.
  intros Hcl Hc Hm Hdict.
  assert (Hlt : (_config self < length h)%nat) by by eapply lookup_lt_Some.
  destruct (build_outcome CONF_COLOR_RGB CONF_COLOR_RGB_DICT CONF_COLOR_TYPE
              CONF_COLORS self h cfg Hcl Hc) as (m & h2 & Hp & Hcase).
  assert (Hraw : raw_mapping CONF_COLOR_RGB_DICT h cfg = VRef (length h))
    by (unfold raw_mapping; by rewrite Hdict).
  assert (Hempty : (h ++ [ODict []]) !! length h = Some (ODict []))
    by by apply list_lookup_middle.
  destruct Hcase as [(_ & Hno)|(l & items0 & y & r & h4 & Hl & Hl1 & _ & _ & _ & Etag & Hrun)].
  { by destruct (Hno (length h) [] Hraw). }
  rewrite Hraw in Hl. injection Hl as <-. rewrite Hempty in Hl1. injection Hl1 as <-.
  simpl in Etag. unfold retM in Etag. injection Etag as <- <-.
  pose proof (cp_len _ _ _ _ _ Hp) as Hlen2. rewrite length_app in Hlen2. simpl in Hlen2.
  set (h5 := <[_config self := ODict (dict_set CONF_COLORS (VRef (length h2)) cfg)]>
               (h2 ++ [OList []])) in *.
  assert (Hc5 : h5 !! _config self
                = Some (ODict (dict_set CONF_COLORS (VRef (length h2)) cfg))).
  { subst h5. apply list_lookup_insert_eq. rewrite length_app. simpl. lia. }
  assert (Hl5 : h5 !! length h2 = Some (OList [])).
  { subst h5. rewrite list_lookup_insert_ne by lia. by apply list_lookup_middle. }
  assert (Hlen5 : length h5 = S (length h2)).
  { subst h5. rewrite length_insert, length_app. simpl. lia. }
  exists (h5 ++ [OList []]), (length h2).
  split; [|split; [|split; [|split]]].
  - unfold async_added_to_hass.
    rewrite (normalize_rgb_ui self h cfg Hc Hm). unfold bindM at 1. rewrite Hrun.
    rewrite (scene_colors_of_run CONF_COLORS self h5 _ 1 (VRef (length h2)) (DList []) Hc5).
    + cbn [tuple]. by destruct (create_color_block_image getink png_encode [] now self).
    + by rewrite dict_get_set_eq.
    + apply load_app. by rewrite (load_ref_list 0 h5 (length h2) [] Hl5).
  - by apply lookup_app_l_Some.
  - by apply lookup_app_l_Some.
  - lia.
  - intros l Hl Hne. rewrite lookup_app_l by lia. subst h5.
    rewrite list_lookup_insert_ne by done. rewrite lookup_app_l by lia.
    rewrite (cp_frame _ _ _ _ _ Hp) by (rewrite length_app; simpl; lia).
    by apply lookup_app_l.
Qed.

(** X13.  In the RGB selector mode with a stored mapping of flat entries,
    the image cached is the one of the mapping's values in iteration
    order, whatever colour list the configuration held before (as long
    as the tag's key is neither ["weight"] nor ["color"]). *)
Theorem mapping_values_are_rendered
    (now : time) (self : AnimatedScenesImage) (h : heap) (cfg : list (string * pyval))
    (mapping : nat) (n : nat) (ditems : list (string * data)) :
  CONF_COLOR_TYPE <> "weight"%string -> CONF_COLOR_TYPE <> "color"%string ->
  closed h -> h !! _config self = Some (ODict cfg) ->
  dict_get CONF_COLOR_SELECTOR_MODE cfg = Some (VAtom (AStr COLOR_SELECTOR_RGB_UI)) ->
  dict_get CONF_COLOR_RGB_DICT cfg = Some (VRef mapping) ->
  load (S (S n)) h (VRef mapping) = Some (DDict ditems) ->
  Forall (fun kv => flat_entry (snd kv)) ditems ->
  exists h',
    added_to_hass now self h =
      Some (create_color_block_image getink png_encode (map snd ditems) now self, h').
Proof.
  intros Hw Hk Hcl Hc Hm Hget Hload Hflat.
  destruct (build_mapping_reads self h cfg mapping n ditems Hcl Hc Hget Hload Hflat)
    as (h1 & color_list & Hrun & Hc1 & Hl1).
  exists (h1 ++ [OList []]).
  unfold async_added_to_hass.
  rewrite (normalize_rgb_ui self h cfg Hc Hm). unfold bindM at 1. rewrite Hrun.
  rewrite (scene_colors_of_run CONF_COLORS self h1 _ _ (VRef color_list) _ Hc1
             (ltac:(by rewrite dict_get_set_eq)) (load_app _ _ _ _ _ Hl1)).
  cbn [tuple]. unfold create_color_block_image.
  rewrite <- (map_map snd stamp_data).
  rewrite (render_stamp_data CONF_COLOR_RGB CONF_COLOR_TYPE getink _ Hw Hk).
  by destruct (render getink (map snd ditems)).
Qed.

End NormalizeFacts.

(** ** Setting up, then adding *)

Lemma string_length_app (s t : string) :
  String.length (s +:+ t) = (String.length s + String.length t)%nat.
Proof. induction s as [|c s IH]; simpl; [done|]. by rewrite IH. Qed.

Lemma append_inj_l (s1 s2 t : string) : s1 +:+ t = s2 +:+ t -> s1 = s2.
Proof.
  intros H.
  assert (Hlen : String.length s1 = String.length s2).
  { apply (f_equal String.length) in H. rewrite !string_length_app in H. lia. }
  revert s2 H Hlen. induction s1 as [|c s1 IH]; intros [|c2 s2] H Hlen; try done.
  simpl in H. injection H as -> H. f_equal. apply IH; [done|]. simpl in Hlen. lia.
Qed.

Section SetupFacts.

Variables CONF_COLOR_RGB CONF_COLOR_RGB_DICT CONF_COLOR_TYPE CONF_COLORS
          CONF_COLOR_SELECTOR_MODE COLOR_SELECTOR_RGB_UI CONF_NAME : string.
Variable str_other : heap -> pyval -> string.
Variable getink : list data -> result rgb.
Variable png_encode : raster -> list byte.

Abbreviation setup_entry := (async_setup_entry CONF_NAME str_other).
Abbreviation added_to_hass := (async_added_to_hass CONF_COLOR_RGB CONF_COLOR_RGB_DICT
  CONF_COLOR_TYPE CONF_COLORS CONF_COLOR_SELECTOR_MODE COLOR_SELECTOR_RGB_UI
  getink png_encode).

(** A run of [async_setup_entry], step by step. *)
Lemma setup_entry_run (now : time) (ce : ConfigEntry) (h : heap)
    (r : result (list NewEntity)) (h1 : heap) :
  setup_entry now ce h = Some (r, h1) ->
  exists items,
    h !! entry_data ce = Some (ODict items) /\ h1 = h ++ [ODict items] /\
    match dict_get CONF_NAME items with
    | Some name =>
        r = Ok [ {| _attr_name := format_value str_other h1 name +:+ " Color Block";
                    _attr_unique_id := entry_id ce +:+ "-image";
                    entity := {| _attr_image_last_updated := now;
                                 _cached_image := None;
                                 _config := length h |} |} ]
    | None => r = Raise KeyError
    end.
Proof.
  unfold async_setup_entry, bindM, dict_copy, __init__, retM.
  destruct (h !! entry_data ce) as [[items|elems]|] eqn:E; [|done|done].
  rewrite list_lookup_middle by done.
  intros H. exists items. split; [done|].
  destruct (dict_get CONF_NAME items); by simplify_eq.
Qed.

Lemma setup_store_closed (h : heap) (l : nat) (items : list (string * pyval)) :
  closed h -> h !! l = Some (ODict items) -> closed (h ++ [ODict items]).
Proof.
  intros Hcl Hl. apply closed_snoc; [done|]. intros r Hr.
  pose proof (Hcl l _ r Hl Hr). lia.
Qed.

(** X14.  [async_setup_entry] raises exactly when the entry's data has no
    name, and then it raises [KeyError] and hands over no entity.
    Otherwise it hands over one entity, without a cached image, whose
    configuration is a new dict with the items of the entry's data.  The
    entry's data and every other object are left as they were. *)
Theorem setup_entry_outcome (now : time) (ce : ConfigEntry) (h : heap)
    (items : list (string * pyval)) :
  h !! entry_data ce = Some (ODict items) ->
  exists r,
    setup_entry now ce h = Some (r, h ++ [ODict items]) /\
    match dict_get CONF_NAME items with
    | None => r = Raise KeyError
    | Some _ =>
        exists e, r = Ok [e] /\ _cached_image (entity e) = None /\
                  _config (entity e) = length h /\
                  _attr_unique_id e = entry_id ce +:+ "-image"
    end.
Proof.
  intros E. unfold async_setup_entry, bindM, dict_copy, __init__, retM. rewrite E.
  rewrite list_lookup_middle by done.
  destruct (dict_get CONF_NAME items) as [name|]; eexists; (split; [reflexivity|]);
    [|done].
  by eexists.
Qed.

(** X15.  Entities set up for entries with different identifiers have
    different unique identifiers. *)
Theorem unique_ids_differ (now now' : time) (ce ce' : ConfigEntry) (h h' : heap)
    (es es' : list NewEntity) (h1 h1' : heap) (e e' : NewEntity) :
  entry_id ce <> entry_id ce' ->
  setup_entry now ce h = Some (Ok es, h1) ->
  setup_entry now' ce' h' = Some (Ok es', h1') ->
  e ∈ es -> e' ∈ es' ->
  _attr_unique_id e <> _attr_unique_id e'.
Proof.
  intros Hne H H' He He' Heq.
  apply setup_entry_run in H as (items & _ & _ & Hr).
  apply setup_entry_run in H' as (items' & _ & _ & Hr').
  destruct (dict_get CONF_NAME items); [|done].
  destruct (dict_get CONF_NAME items'); [|done].
  simplify_eq. apply list_elem_of_singleton in He, He'. subst e e'. simpl in Heq.
  by apply append_inj_l in Heq.
Qed.

(** X16.  Setting an entity up and adding it changes no object that
    existed before, whatever the mode and whether the calls complete or
    raise: the entity writes to its own copy of the entry's data and to
    a deep copy of the colour mapping, never to the entry's data or to
    anything reachable from it. *)
Theorem setup_and_add_keep_entry_data
    (now now' : time) (ce : ConfigEntry) (h : heap) (e : NewEntity) (h1 : heap)
    (r : result unit) (self' : AnimatedScenesImage) (h2 : heap) :
  closed h ->
  setup_entry now ce h = Some (Ok [e], h1) ->
  added_to_hass now' (entity e) h1 = Some (r, self', h2) ->
  forall l : nat, (l < length h)%nat -> h2 !! l = h !! l.
Proof.
  intros Hcl Hs Ha l Hl.
  apply setup_entry_run in Hs as (items & Hd & -> & Hr).
  destruct (dict_get CONF_NAME items) as [name|]; [|done]. injection Hr as ->.
  cbn [entity] in Ha.
  set (self := {| _attr_image_last_updated := now; _cached_image := None;
                  _config := length h |}) in *.
  assert (Hcl1 : closed (h ++ [ODict items])) by by eapply setup_store_closed.
  assert (Hc1 : (h ++ [ODict items]) !! _config self = Some (ODict items))
    by by apply list_lookup_middle.
  unfold async_added_to_hass in Ha.
  destruct (normalize _ _ _ _ _ _ self (h ++ [ODict items])) as [[[sc|ex] h3]|] eqn:En;
    [| |done].
  - destruct (create_color_block_image getink png_encode sc now' self) as [r0 s0].
    injection Ha as _ _ <-.
    rewrite (normalize_frame _ _ _ _ _ _ self _ items _ _ Hcl1 Hc1 En);
      [by apply lookup_app_l| rewrite length_app; simpl; lia | simpl; lia].
  - injection Ha as _ _ <-.
    rewrite (normalize_frame _ _ _ _ _ _ self _ items _ _ Hcl1 Hc1 En);
      [by apply lookup_app_l| rewrite length_app; simpl; lia | simpl; lia].
Qed.

(** X17.  End to end in a mode other than the RGB one: when the entry's
    data has a name and a colour list, setting up and adding the entity
    completes both calls and caches the image of that list, read through
    the entity's copy of the data. *)
Theorem setup_entity_renders_entry_colors
    (now now' : time) (ce : ConfigEntry) (h : heap) (items : list (string * pyval))
    (name v : pyval) (k : nat) (entries : list data) :
  h !! entry_data ce = Some (ODict items) ->
  dict_get CONF_NAME items = Some name ->
  dict_get CONF_COLOR_SELECTOR_MODE items <> Some (VAtom (AStr COLOR_SELECTOR_RGB_UI)) ->
  dict_get CONF_COLORS items = Some v ->
  load k h v = Some (DList entries) ->
  exists e h1 h2,
    setup_entry now ce h = Some (Ok [e], h1) /\
    added_to_hass now' (entity e) h1 =
      Some (create_color_block_image getink png_encode entries now' (entity e), h2).
Proof.
  intros Hd Hn Hm Hv Hl.
  set (self := {| _attr_image_last_updated := now; _cached_image := None;
                  _config := length h |}).
  exists {| _attr_name := format_value str_other (h ++ [ODict items]) name +:+ " Color Block";
            _attr_unique_id := entry_id ce +:+ "-image";
            entity := self |}, (h ++ [ODict items]), ((h ++ [ODict items]) ++ [OList []]).
  split.
  - unfold async_setup_entry, bindM, dict_copy, __init__, retM. rewrite Hd.
    rewrite list_lookup_middle by done. by rewrite Hn.
  - cbn [entity].
    assert (Hc1 : (h ++ [ODict items]) !! _config self = Some (ODict items))
      by by apply list_lookup_middle.
    unfold async_added_to_hass.
    rewrite (normalize_other_mode _ _ _ _ _ _ self _ items Hc1 Hm).
    rewrite (scene_colors_of_run CONF_COLORS self _ items k v (DList entries) Hc1).
    + cbn [tuple].
      by destruct (create_color_block_image getink png_encode entries now' self).
    + by rewrite Hv.
    + by do 2 apply load_app.
Qed.

End SetupFacts.

(** ** Widths follow weights *)




(** ** Worked examples *)

Lemma closedb_closed (h : heap) : closedb h = true -> closed h.
Proof.
  unfold closedb. rewrite forallb_forall. intros H l o r Hl Hr.
  assert (Ho : In o h) by (apply list_elem_of_In; by eapply list_elem_of_lookup_2).
  specialize (H o Ho). rewrite forallb_forall in H.
  apply list_elem_of_In in Hr. specialize (H _ Hr). simpl in H.
  by apply Nat.ltb_lt in H.
Qed.

(** Both entries weigh nothing: the call completes and the image it caches
    is the black one. *)
Lemma render_zero_weights_witness :
  Forall zero_weight [red (AInt 0); blue (AFloat 0)] /\
  total_weight [red (AInt 0); blue (AFloat 0)] = Ok 1%Q /\
  create_color_block_image rgb_ink raw_encode [red (AInt 0); blue (AFloat 0)] 1
                           fresh_entity =
    (Ok tt,
     {| _attr_image_last_updated := 1;
        _cached_image :=
          Some {| content := raw_encode (new_image (Z.to_nat width) (Z.to_nat height));
                  content_type := "image/png" |};
        _config := 0%nat |}).
Proof.
  assert (H : Forall zero_weight [red (AInt 0); blue (AFloat 0)]).
  { repeat constructor; eexists; (split; [reflexivity|reflexivity]). }
  split; [exact H|].
  destruct (render_zero_weights rgb_ink raw_encode _ 1 fresh_entity H)
    as (Htot & _ & _ & _ & Hrun).
  split; assumption.
Defined.


(** A weight of 1 in a total of 1000 gives width 0: the entry is skipped. *)
Lemma skipped_entry_has_no_effect_witness :
  block_width 1000 (green (AInt 1)) = Ok 0 /\
  for_each (draw_block rgb_ink 1000)
           ([red (AInt 999)] ++ green (AInt 1) :: [blue (AInt 0)])
           (0, new_image (Z.to_nat width) (Z.to_nat height)) =
  for_each (draw_block rgb_ink 1000) ([red (AInt 999)] ++ [blue (AInt 0)])
           (0, new_image (Z.to_nat width) (Z.to_nat height)).
Proof.
  split; [reflexivity|].
  apply (skipped_entry_has_no_effect rgb_ink 1000 _ _ (green (AInt 1)) 0).
  - reflexivity.
  - lia.
Defined.

(** Weights 3, -1 and 2 against a total of 4: the cursor is at 375 after
    the first entry and at 625 after the third; the second is skipped. *)
Lemma cursor_never_moves_left_witness :
  for_each (draw_block rgb_ink 4)
           (take 1 [red (AInt 3); green (AInt (-1)); blue (AInt 2)])
           (0, new_image (Z.to_nat width) (Z.to_nat height))
    = Ok (375, rectangle 0 0 375 height (255, 0, 0)
                 (new_image (Z.to_nat width) (Z.to_nat height))) /\
  for_each (draw_block rgb_ink 4)
           (take 3 [red (AInt 3); green (AInt (-1)); blue (AInt 2)])
           (0, new_image (Z.to_nat width) (Z.to_nat height))
    = Ok (625, rectangle 375 0 625 height (0, 0, 255)
                 (rectangle 0 0 375 height (255, 0, 0)
                    (new_image (Z.to_nat width) (Z.to_nat height)))) /\
  0 <= 375 <= 625.
Proof.
  assert (H1 : for_each (draw_block rgb_ink 4)
                 (take 1 [red (AInt 3); green (AInt (-1)); blue (AInt 2)])
                 (0, new_image (Z.to_nat width) (Z.to_nat height))
               = Ok (375, rectangle 0 0 375 height (255, 0, 0)
                            (new_image (Z.to_nat width) (Z.to_nat height))))
    by reflexivity.
  assert (H3 : for_each (draw_block rgb_ink 4)
                 (take 3 [red (AInt 3); green (AInt (-1)); blue (AInt 2)])
                 (0, new_image (Z.to_nat width) (Z.to_nat height))
               = Ok (625, rectangle 375 0 625 height (0, 0, 255)
                            (rectangle 0 0 375 height (255, 0, 0)
                               (new_image (Z.to_nat width) (Z.to_nat height)))))
    by reflexivity.
  split; [exact H1|]. split; [exact H3|].
  assert (Hij : (1 <= 3)%nat) by lia.
  exact (proj1 (cursor_never_moves_left rgb_ink 4 _ 1 3 _ _ Hij H1 H3)).
Defined.

(** A weight that is a string: the call raises and the entity is as it
    was. *)
Lemma malformed_entry_raises_witness :
  exists e,
    create_color_block_image rgb_ink raw_encode
      [red (AInt 1); color_entry 0 0 255 (AStr "heavy")] 1 fresh_entity
    = (Raise e, fresh_entity).
Proof.
  apply malformed_entry_raises. left.
  apply Exists_cons_tl, Exists_cons_hd. reflexivity.
Defined.

(** C5, as stated, fails: an entry whose colour is [None] is malformed, yet
    with weight 0 it is skipped before its colour is looked at; the call
    completes and replaces the cached image and the timestamp. *)
Lemma malformed_skipped_entry_renders :
  existsb (malformed_entry rgb_ink) [colorless; red (AInt 1)] = true /\
  fst (create_color_block_image rgb_ink raw_encode [colorless; red (AInt 1)] 1
                                fresh_entity) = Ok tt /\
  _attr_image_last_updated
    (snd (create_color_block_image rgb_ink raw_encode [colorless; red (AInt 1)] 1
                                   fresh_entity)) = 1 /\
  is_Some (_cached_image
    (snd (create_color_block_image rgb_ink raw_encode [colorless; red (AInt 1)] 1
                                   fresh_entity))).
Proof.
  split; [reflexivity|].
  assert (H : render rgb_ink [colorless; red (AInt 1)]
              = Ok (rectangle 0 0 500 height (255, 0, 0)
                      (new_image (Z.to_nat width) (Z.to_nat height))))
    by reflexivity.
  unfold create_color_block_image. rewrite H. simpl.
  split; [done|]. split; [done|]. by eexists.
Qed.

(** C3, as stated, fails on two entries of equal weight.  The first
    rectangle runs from column 0 to column 250 and paints column 250 red;
    the second starts at column 250 and paints it blue. *)
Theorem adjacent_blocks_share_a_column :
  let canvas := new_image (Z.to_nat width) (Z.to_nat height) in
  let first := rectangle 0 0 250 height (255, 0, 0) canvas in
  let second := rectangle 250 0 500 height (0, 0, 255) first in
  total_weight [red (AInt 1); blue (AInt 1)] = Ok 2%Q /\
  draw_block rgb_ink 2 (0, canvas) (red (AInt 1)) = Ok (250, first) /\
  draw_block rgb_ink 2 (250, first) (blue (AInt 1)) = Ok (500, second) /\
  getpixel canvas 250 0 = Some (0, 0, 0) /\
  getpixel first 250 0 = Some (255, 0, 0) /\
  getpixel second 250 0 = Some (0, 0, 255).
Proof.
  cbv zeta. split; [reflexivity|]. split; [reflexivity|]. split; [reflexivity|].
  rewrite !getpixel_rectangle.
  rewrite getpixel_new_image by (unfold width, height; lia).
  repeat split; reflexivity.
Qed.

(** The mapping of [mapping_store] is copied: the six stored objects other
    than the configuration dict are as they were after the call. *)
Lemma normalized_entries_not_aliased_witness :
  closed mapping_store /\
  exists r h',
    _async_build_colors_from_rgb_dict "rgb" "color_rgb_dict" "color_type" "colors"
                                      fresh_entity mapping_store = Some (r, h') /\
    (forall l : nat, (l < 6)%nat -> l <> 0%nat -> h' !! l = mapping_store !! l).
Proof.
  assert (Hcl : closed mapping_store) by (apply closedb_closed; reflexivity).
  split; [exact Hcl|].
  edestruct (normalized_entries_not_aliased "rgb" "color_rgb_dict" "color_type" "colors"
               fresh_entity mapping_store) as (r & h' & Hrun & Hframe & _).
  - exact Hcl.
  - reflexivity.
  - discriminate.
  - exists r, h'. split; [exact Hrun | exact Hframe].
Defined.

(** The scenario of the mapping with keys ["a"] and ["b"]: two entries, in
    that order, each tagged. *)
Lemma mapping_values_in_order_tagged_witness :
  exists h' (color_list : nat),
    _async_build_colors_from_rgb_dict "rgb" "color_rgb_dict" "color_type" "colors"
                                      fresh_entity mapping_store = Some (Ok tt, h') /\
    load 3 h' (VRef color_list) =
      Some (DList
        [DDict [("color"%string, DList [DAtom (AInt 255); DAtom (AInt 0); DAtom (AInt 0)]);
                ("weight"%string, DAtom (AInt 1));
                ("color_type"%string, DAtom (AStr "rgb"))];
         DDict [("color"%string, DList [DAtom (AInt 0); DAtom (AInt 255); DAtom (AInt 0)]);
                ("weight"%string, DAtom (AInt 1));
                ("color_type"%string, DAtom (AStr "rgb"))]]).
Proof.
  edestruct (mapping_values_in_order_tagged "rgb" "color_rgb_dict" "color_type" "colors"
               fresh_entity mapping_store) as (h' & color_list & Hrun & _ & Hload).
  - apply closedb_closed. reflexivity.
  - reflexivity.
  - reflexivity.
  - instantiate (2 := 1%nat). reflexivity.
  - repeat constructor; eexists; (split; [reflexivity | repeat constructor]).
  - exists h', color_list. split; [exact Hrun | exact Hload].
Defined.

(** A configuration with a name only: the renderer is given the empty
    list. *)
Lemma no_colors_normalize_empty_witness :
  exists h',
    normalize "rgb" "color_rgb_dict" "color_type" "colors" "color_selector_mode" "rgb_ui"
              fresh_entity bare_store = Some (Ok [], h') /\
    exists self',
      async_added_to_hass "rgb" "color_rgb_dict" "color_type" "colors"
                          "color_selector_mode" "rgb_ui" rgb_ink raw_encode
                          1 fresh_entity bare_store = Some (Ok tt, self', h').
Proof.
  edestruct (no_colors_normalize_empty "rgb" "color_rgb_dict" "color_type" "colors"
               "color_selector_mode" "rgb_ui" rgb_ink raw_encode 1 fresh_entity bare_store)
    as (h' & Hnorm & Hrun).
  - apply closedb_closed. reflexivity.
  - reflexivity.
  - reflexivity.
  - reflexivity.
  - exists h'. split; [exact Hnorm|]. eexists. exact Hrun.
Defined.

(** One red entry: the image has the size of the canvas. *)
Lemma render_canvas_size_witness :
  render rgb_ink [red (AInt 1)]
    = Ok (rectangle 0 0 500 height (255, 0, 0)
            (new_image (Z.to_nat width) (Z.to_nat height))) /\
  canvas_shape (Z.to_nat width) (Z.to_nat height)
    (rectangle 0 0 500 height (255, 0, 0)
       (new_image (Z.to_nat width) (Z.to_nat height))).
Proof.
  assert (H : render rgb_ink [red (AInt 1)]
              = Ok (rectangle 0 0 500 height (255, 0, 0)
                      (new_image (Z.to_nat width) (Z.to_nat height))))
    by reflexivity.
  split; [exact H|]. exact (render_canvas_size rgb_ink _ _ H).
Defined.

(** Red, then blue, of equal weight: columns 250 to 499 are blue. *)
Lemma drawn_block_visible_witness :
  exists ink,
    resolve_color rgb_ink (blue (AInt 1)) = Ok ink /\
    forall px py : nat,
      250 <= Z.of_nat px < 250 + 250 -> Z.of_nat px < width -> Z.of_nat py < height ->
      getpixel (rectangle 250 0 500 height (0, 0, 255)
                  (rectangle 0 0 250 height (255, 0, 0)
                     (new_image (Z.to_nat width) (Z.to_nat height)))) px py = Some ink.
Proof.
  apply (drawn_block_visible rgb_ink 2 [red (AInt 1)] [] (blue (AInt 1)) 250 250 500
           (rectangle 0 0 250 height (255, 0, 0)
              (new_image (Z.to_nat width) (Z.to_nat height)))).
  - reflexivity.
  - reflexivity.
  - lia.
  - reflexivity.
Defined.



(** A tagged red entry renders as the untagged one. *)
Lemma render_ignores_type_tag_witness :
  create_color_block_image rgb_ink raw_encode
    (map (stamp_data "rgb" "color_type") [red (AInt 1)]) 1 fresh_entity =
  create_color_block_image rgb_ink raw_encode [red (AInt 1)] 1 fresh_entity.
Proof.
  apply (render_ignores_type_tag "rgb" "color_type" rgb_ink raw_encode).
  - discriminate.
  - discriminate.
Defined.


(** The store after normalising [mapping_store] has no dangling
    reference. *)
Lemma build_keeps_closed_witness :
  exists r h',
    _async_build_colors_from_rgb_dict "rgb" "color_rgb_dict" "color_type" "colors"
                                      fresh_entity mapping_store = Some (r, h') /\
    closed h'.
Proof.
  eexists _, _. split; [vm_compute; reflexivity|].
  eapply (build_keeps_closed "rgb" "color_rgb_dict" "color_type" "colors"
            fresh_entity mapping_store).
  - apply closedb_closed. reflexivity.
  - reflexivity.
  - vm_compute. reflexivity.
Defined.

(** The mapping of [mapping_store] is a dict of dicts: the function
    completes. *)
Lemma build_ok_iff_witness :
  exists h',
    _async_build_colors_from_rgb_dict "rgb" "color_rgb_dict" "color_type" "colors"
                                      fresh_entity mapping_store = Some (Ok tt, h').
Proof.
  refine (proj2 (build_ok_iff "rgb" "color_rgb_dict" "color_type" "colors"
                   fresh_entity mapping_store _
                   (closedb_closed mapping_store eq_refl) eq_refl) _).
  intros v Hv. vm_compute in Hv. injection Hv as <-.
  eexists 1%nat, _. split; [reflexivity|]. split; [reflexivity|].
  repeat constructor; eexists _, _; (split; reflexivity).
Defined.

(** The second value of the mapping of [broken_store] is a number: the
    function raises [AttributeError] and the three stored objects are as
    they were. *)
Lemma build_raise_leaves_store_witness :
  exists h',
    _async_build_colors_from_rgb_dict "rgb" "color_rgb_dict" "color_type" "colors"
                                      fresh_entity broken_store
      = Some (Raise AttributeError, h') /\
    forall l : nat, (l < 3)%nat -> h' !! l = broken_store !! l.
Proof.
  eexists. split; [vm_compute; reflexivity|].
  eapply (build_raise_leaves_store "rgb" "color_rgb_dict" "color_type" "colors"
            fresh_entity broken_store).
  - apply closedb_closed. reflexivity.
  - reflexivity.
  - vm_compute. reflexivity.
Defined.

(** Without a selector mode the list of [list_store] is rendered. *)
Lemma stored_list_rendered_as_is_witness :
  async_added_to_hass "rgb" "color_rgb_dict" "color_type" "colors"
                      "color_selector_mode" "rgb_ui" rgb_ink raw_encode
                      1 fresh_entity list_store
    = Some (create_color_block_image rgb_ink raw_encode [red (AInt 1)] 1 fresh_entity,
            list_store ++ [OList []]).
Proof.
  eapply (stored_list_rendered_as_is "rgb" "color_rgb_dict" "color_type" "colors"
           "color_selector_mode" "rgb_ui" rgb_ink raw_encode 1 fresh_entity list_store
           _ (VRef 1) 3).
  - reflexivity.
  - discriminate.
  - reflexivity.
  - reflexivity.
Defined.

(** In the RGB mode the list of [stale_store] is dropped: the image is
    the one of the empty list. *)
Lemma rgb_mode_without_mapping_drops_list_witness :
  exists h',
    async_added_to_hass "rgb" "color_rgb_dict" "color_type" "colors"
                        "color_selector_mode" "rgb_ui" rgb_ink raw_encode
                        1 fresh_entity stale_store
      = Some (create_color_block_image rgb_ink raw_encode [] 1 fresh_entity, h').
Proof.
  edestruct (rgb_mode_without_mapping_drops_list "rgb" "color_rgb_dict" "color_type"
               "colors" "color_selector_mode" "rgb_ui" rgb_ink raw_encode
               1 fresh_entity stale_store) as (h' & color_list & Hrun & _).
  - apply closedb_closed. reflexivity.
  - reflexivity.
  - reflexivity.
  - reflexivity.
  - exists h'. exact Hrun.
Defined.

(** The mapping of [mapping_store]: the image is the one of its two
    values, red and green. *)
Lemma mapping_values_are_rendered_witness :
  exists h',
    async_added_to_hass "rgb" "color_rgb_dict" "color_type" "colors"
                        "color_selector_mode" "rgb_ui" rgb_ink raw_encode
                        1 fresh_entity mapping_store
      = Some (create_color_block_image rgb_ink raw_encode
                [red (AInt 1); green (AInt 1)] 1 fresh_entity, h').
Proof.
  eapply (mapping_values_are_rendered "rgb" "color_rgb_dict" "color_type" "colors"
           "color_selector_mode" "rgb_ui" rgb_ink raw_encode 1 fresh_entity mapping_store
           _ 1%nat 1%nat [("a"%string, red (AInt 1)); ("b"%string, green (AInt 1))]).
  - discriminate.
  - discriminate.
  - apply closedb_closed. reflexivity.
  - reflexivity.
  - reflexivity.
  - reflexivity.
  - reflexivity.
  - repeat constructor; eexists; (split; [reflexivity | repeat constructor]).
Defined.

(** The data of [list_store] has a name: one entity, whose configuration
    is the new fifth object. *)
Lemma setup_entry_outcome_witness :
  exists e,
    async_setup_entry "name" no_str 0 entry_a list_store
      = Some (Ok [e], list_store ++ [ODict [("name"%string, VAtom (AStr "x"));
                                            ("colors"%string, VRef 1)]]) /\
    _config (entity e) = 4%nat /\ _attr_unique_id e = "a1-image"%string.
Proof.
  destruct (setup_entry_outcome "name" no_str 0 entry_a list_store _ eq_refl)
    as (r & Hrun & e & -> & _ & Hc & Hid).
  exists e. split; [exact Hrun|]. split; [exact Hc | exact Hid].
Defined.

(** Entries [a1] and [b2]: the identifiers are [a1-image] and
    [b2-image]. *)
Lemma unique_ids_differ_witness :
  exists e e' h1 h1',
    async_setup_entry "name" no_str 0 entry_a list_store = Some (Ok [e], h1) /\
    async_setup_entry "name" no_str 0 entry_b list_store = Some (Ok [e'], h1') /\
    _attr_unique_id e <> _attr_unique_id e'.
Proof.
  eexists _, _, _, _. split; [reflexivity|]. split; [reflexivity|].
  eapply (unique_ids_differ "name" no_str 0 0 entry_a entry_b list_store list_store).
  - discriminate.
  - reflexivity.
  - reflexivity.
  - constructor.
  - constructor.
Defined.

(** Setting up and adding an entity for [entry_a]: the four objects of
    [list_store] are as they were. *)
Lemma setup_and_add_keep_entry_data_witness :
  exists e h1 r self' h2,
    async_setup_entry "name" no_str 0 entry_a list_store = Some (Ok [e], h1) /\
    async_added_to_hass "rgb" "color_rgb_dict" "color_type" "colors"
                        "color_selector_mode" "rgb_ui" rgb_ink raw_encode
                        1 (entity e) h1 = Some (r, self', h2) /\
    forall l : nat, (l < 4)%nat -> h2 !! l = list_store !! l.
Proof.
  eexists _, _, _, _, _. split; [reflexivity|]. split; [reflexivity|].
  eapply (setup_and_add_keep_entry_data "rgb" "color_rgb_dict" "color_type" "colors"
            "color_selector_mode" "rgb_ui" "name" no_str rgb_ink raw_encode
            0 1 entry_a list_store).
  - apply closedb_closed. reflexivity.
  - reflexivity.
  - reflexivity.
Defined.

(** The entity set up for [entry_a] caches the image of the red entry
    stored in the entry's data. *)
Lemma setup_entity_renders_entry_colors_witness :
  exists e h1 h2,
    async_setup_entry "name" no_str 0 entry_a list_store = Some (Ok [e], h1) /\
    async_added_to_hass "rgb" "color_rgb_dict" "color_type" "colors"
                        "color_selector_mode" "rgb_ui" rgb_ink raw_encode
                        1 (entity e) h1
      = Some (create_color_block_image rgb_ink raw_encode [red (AInt 1)] 1 (entity e), h2).
Proof.
  eapply (setup_entity_renders_entry_colors "rgb" "color_rgb_dict" "color_type" "colors"
            "color_selector_mode" "rgb_ui" "name" no_str rgb_ink raw_encode
            0 1 entry_a list_store _ _ (VRef 1) 3).
  - reflexivity.
  - reflexivity.
  - discriminate.
  - reflexivity.
  - reflexivity.
Defined.

